(** * promiseChaining.js: callback chains and promise chains

    A shallow embedding of [src/promiseChaining.js].  The script chains four
    dependent HTTP requests (user, blog, blog post, comments) in five ways:

    - [getComments]: nested callbacks, no error handling;
    - [getCommsPromisified], [getCommsPromisified2]: promise chains;
    - [getCommentsHandleErrs]: nested callbacks with error handling;
    - [getCommsPromisifiedHandleErrs]: the promise chain once more.

    The two libraries the script calls, [request] and [request-promise], and
    the built-in [JSON.parse] are not part of the script: they are variables of
    the section below. *)

From Stdlib Require Import String Ascii List ZArith Bool Lia DecimalString.
Import ListNotations.
Local Open Scope list_scope.
Local Open Scope Z_scope.
Local Open Scope string_scope.

Set Warnings "-register-all".

(** ** JavaScript values *)

(** The values [JSON.parse] produces, and [undefined].  Numbers are the
    integral ones (identifiers, status codes), kept as [Z]. *)
Inductive jsValue : Type :=
| VUndefined
| VNull
| VBool (b : bool)
| VNum (n : Z)
| VStr (s : string)
| VArr (items : list jsValue)
| VObj (fields : list (string * jsValue)).

(** The error objects that occur: what the request libraries hand over
    ([RequestFailure]), [new Error(message)], and the two exceptions the
    script can raise itself: [JSON.parse] on a text that is not JSON, and a
    member access on [null] or [undefined]. *)
Inductive jsError : Type :=
| RequestFailure (cause : string)
| Error (message : string)
| SyntaxError (text : string)
| TypeError (property : string).

(** Decimal rendering of a number, as in ['status ' + res.statusCode]. *)
Definition numToStr (n : Z) : string := NilZero.string_of_int (Z.to_int n).

(** [ToString], the conversion applied by [+] to the non-string operand and
    by [JSON.parse] to its argument.  Inside [Array.prototype.join], [null]
    and [undefined] elements render as the empty string. *)
Fixpoint toStr (v : jsValue) : string :=
  match v with
  | VUndefined => "undefined"
  | VNull => "null"
  | VBool true => "true"
  | VBool false => "false"
  | VNum n => numToStr n
  | VStr s => s
  | VArr items =>
      (fix join (l : list jsValue) : string :=
         match l with
         | [] => EmptyString
         | x :: rest =>
             let here := match x with
                         | VUndefined | VNull => EmptyString
                         | _ => toStr x
                         end in
             match rest with
             | [] => here
             | _ :: _ => here ++ "," ++ join rest
             end
         end) items
  | VObj _ => "[object Object]"
  end.

Fixpoint lookupField (name : string) (fields : list (string * jsValue)) : jsValue :=
  match fields with
  | [] => VUndefined
  | (k, v) :: rest => if String.eqb k name then v else lookupField name rest
  end.

(** The member access [v.id]: a [TypeError] on [null] and [undefined], the
    field of an object, [undefined] everywhere else (no primitive, string or
    array has a property called [id]). *)
Definition get_id (v : jsValue) : jsError + jsValue :=
  match v with
  | VUndefined | VNull => inl (TypeError "id")
  | VObj fields => inr (lookupField "id" fields)
  | _ => inr VUndefined
  end.

(** Truthiness, for [if (err)]. *)
Definition truthy (v : jsValue) : bool :=
  match v with
  | VUndefined | VNull => false
  | VBool b => b
  | VNum n => negb (n =? 0)%Z
  | VStr s => negb (String.eqb s EmptyString)
  | VArr _ | VObj _ => true
  end.

(** ** Module state, events and the execution monad *)

(** The script's only module-level variable that the functions read. *)
Record globals : Type := Globals { apiURL : string }.

(** [var apiURL = 'http://ctrl-alt-create.net/api/'] *)
Definition initial_globals : globals :=
  {| apiURL := "http://ctrl-alt-create.net/api/" |}.

(** An argument handed to a callback: a value or an error object. *)
Inductive arg : Type :=
| AVal (v : jsValue)
| AErr (e : jsError).

(** What a run does that the outside can see: requests going out, and the
    caller's callback being invoked. *)
Inductive event : Type :=
| Request (url : string)
| Callback (args : list arg).

(** The result of running a piece of the script from a given module state:
    the events in order, the module state afterwards, and either the value
    produced or the exception that escaped. *)
Record outcome (A : Type) : Type :=
  Outcome { log : list event; store : globals; ret : jsError + A }.
Arguments Outcome {A} _ _ _.
Arguments log {A} _.
Arguments store {A} _.
Arguments ret {A} _.

Definition M (A : Type) : Type := globals -> outcome A.

Definition pure {A} (a : A) : M A := fun g => Outcome [] g (inr a).

Definition throw {A} (e : jsError) : M A := fun g => Outcome [] g (inl e).

Definition bind {A B} (m : M A) (f : A -> M B) : M B :=
  fun g =>
    match m g with
    | Outcome l g' (inl e) => Outcome l g' (inl e)
    | Outcome l g' (inr a) =>
        match f a g' with
        | Outcome l' g'' r => Outcome (l ++ l')%list g'' r
        end
    end.

Definition emit (ev : event) : M unit := fun g => Outcome [ev] g (inr tt).

(** Reading the variable [apiURL]. *)
Definition read_apiURL : M string := fun g => Outcome [] g (inr (apiURL g)).

Definition lift {A} (r : jsError + A) : M A :=
  match r with
  | inl e => throw e
  | inr a => pure a
  end.

Declare Scope js_scope.
Delimit Scope js_scope with js.
Notation "x <- c1 ;; c2" := (bind c1 (fun x => c2))
  (at level 61, c1 at next level, right associativity) : js_scope.
Notation "c1 ;; c2" := (bind c1 (fun _ => c2))
  (at level 61, right associativity) : js_scope.
Local Open Scope js_scope.

(** ** The collaborators *)

(** What [request] reports to its callback: a transport error, or a response
    with a status code and a body. *)
Inductive response : Type :=
| NetError (err : jsError)
| Reply (status : Z) (body : string).

(** The [res] object, of which the script reads [statusCode] only. *)
Record incomingMessage : Type := Message { statusCode : Z }.

(** A promise, seen from the chain that awaits it: the events up to the
    moment it settles, and how it settles; [inr v] is fulfilled with [v],
    [inl e] is rejected with [e]. *)
Definition promise (A : Type) : Type := M A.

(** [p.then(f)]: a rejected [p] skips [f] and stays rejected; [f] runs on
    the value of a fulfilled [p], and what [f] returns (a promise or a plain
    value) or throws settles the result. *)
Definition then_ {A B} (p : promise A) (f : A -> promise B) : promise B :=
  bind p f.

Section Script.

(** [JSON.parse] on a text: [None] when it throws a [SyntaxError]. *)
Variable JSON_parse_text : string -> option jsValue.

(** The server as [request] sees it. *)
Variable respond : string -> response.

(** The server as [request-promise] sees it: the body the promise is
    fulfilled with, or the reason it is rejected with. *)
Variable settle : string -> jsError + string.

(** [JSON.parse(x)]: the argument is converted to a string first. *)
Definition JSON_parse (x : jsValue) : M jsValue :=
  match JSON_parse_text (toStr x) with
  | Some v => pure v
  | None => throw (SyntaxError (toStr x))
  end.

(** [request(url, function (err, res, body) {...})]: on a transport error
    the callback gets the error and [undefined] twice, otherwise [null],
    the response object and the body. *)
Definition request (url : string)
    (k : option jsError -> option incomingMessage -> jsValue -> M unit) : M unit :=
  emit (Request url) ;;
  match respond url with
  | NetError e => k (Some e) None VUndefined
  | Reply s b => k None (Some (Message s)) (VStr b)
  end.

(** [reqPromise(url)] *)
Definition reqPromise (url : string) : promise string :=
  emit (Request url) ;; lift (settle url).

(** [res.statusCode], a [TypeError] when [res] is [undefined]. *)
Definition get_statusCode (res : option incomingMessage) : M Z :=
  match res with
  | Some m => pure (statusCode m)
  | None => throw (TypeError "statusCode")
  end.

(** *** Lines 28-44 *)
Definition getComments (username postTitle : string)
    (callback : list arg -> M unit) : M unit :=
  a <- read_apiURL ;;
  request ((a ++ "users/") ++ username) (fun err res body =>
    user <- JSON_parse body ;;
    a <- read_apiURL ;;
    user_id <- lift (get_id user) ;;
    request ((a ++ "blogs/") ++ toStr user_id) (fun err res body =>
      blog <- JSON_parse body ;;
      a <- read_apiURL ;;
      blog_id <- lift (get_id blog) ;;
      request ((((a ++ "blogposts/") ++ toStr blog_id) ++ "/") ++ postTitle)
        (fun err res body =>
          post <- JSON_parse body ;;
          a <- read_apiURL ;;
          post_id <- lift (get_id post) ;;
          request ((a ++ "comments/") ++ toStr post_id) (fun err res body =>
            comments <- JSON_parse body ;;
            callback [AVal comments])))).

(** *** Lines 83-127 *)
Definition getCommsPromisified (username postTitle : string) : promise jsValue :=
  then_ (then_ (then_ (then_
    (a <- read_apiURL ;; reqPromise ((a ++ "users/") ++ username))
    (fun body =>
       user <- JSON_parse (VStr body) ;;
       a <- read_apiURL ;;
       user_id <- lift (get_id user) ;;
       reqPromise ((a ++ "blogs/") ++ toStr user_id)))
    (fun body =>
       blog <- JSON_parse (VStr body) ;;
       a <- read_apiURL ;;
       blog_id <- lift (get_id blog) ;;
       reqPromise ((((a ++ "blogposts/") ++ toStr blog_id) ++ "/") ++ postTitle)))
    (fun body =>
       post <- JSON_parse (VStr body) ;;
       a <- read_apiURL ;;
       post_id <- lift (get_id post) ;;
       reqPromise ((a ++ "comments/") ++ toStr post_id)))
    (fun body =>
       JSON_parse (VStr body)).

(** *** Lines 142-159 *)
Definition getCommsPromisified2 (username postTitle : string) : promise jsValue :=
  then_ (then_ (then_ (then_
    (a <- read_apiURL ;; reqPromise ((a ++ "users/") ++ username))
    (fun body =>
       user <- JSON_parse (VStr body) ;;
       a <- read_apiURL ;;
       user_id <- lift (get_id user) ;;
       reqPromise ((a ++ "blogs/") ++ toStr user_id)))
    (fun body =>
       blog <- JSON_parse (VStr body) ;;
       a <- read_apiURL ;;
       blog_id <- lift (get_id blog) ;;
       reqPromise ((((a ++ "blogposts/") ++ toStr blog_id) ++ "/") ++ postTitle)))
    (fun body =>
       post <- JSON_parse (VStr body) ;;
       a <- read_apiURL ;;
       post_id <- lift (get_id post) ;;
       reqPromise ((a ++ "comments/") ++ toStr post_id)))
    (fun body =>
       JSON_parse (VStr body)).

(** [new Error('Failed request: status ' + res.statusCode)] *)
Definition failedRequest (s : Z) : jsError :=
  Error ("Failed request: status " ++ toStr (VNum s)).

(** *** Lines 180-217 *)
Definition getCommentsHandleErrs (username postTitle : string)
    (callback : list arg -> M unit) : M unit :=
  a <- read_apiURL ;;
  request ((a ++ "users/") ++ username) (fun err res body =>
    match err with
    | Some e => callback [AErr e]
    | None =>
      s <- get_statusCode res ;;
      if negb (s =? 200)%Z then callback [AErr (failedRequest s)]
      else
        user <- JSON_parse body ;;
        a <- read_apiURL ;;
        user_id <- lift (get_id user) ;;
        request ((a ++ "blogs/") ++ toStr user_id) (fun err res body =>
          match err with
          | Some e => callback [AErr e]
          | None =>
            s <- get_statusCode res ;;
            if negb (s =? 200)%Z then callback [AErr (failedRequest s)]
            else
              blog <- JSON_parse body ;;
              a <- read_apiURL ;;
              blog_id <- lift (get_id blog) ;;
              request ((((a ++ "blogposts/") ++ toStr blog_id) ++ "/") ++ postTitle)
                (fun err res body =>
                  match err with
                  | Some e => callback [AErr e]
                  | None =>
                    s <- get_statusCode res ;;
                    if negb (s =? 200)%Z then callback [AErr (failedRequest s)]
                    else
                      post <- JSON_parse body ;;
                      a <- read_apiURL ;;
                      post_id <- lift (get_id post) ;;
                      request ((a ++ "/comments/") ++ toStr post_id)
                        (fun err res body =>
                          match err with
                          | Some e => callback [AErr e]
                          | None =>
                            s <- get_statusCode res ;;
                            if negb (s =? 200)%Z
                            then callback [AErr (failedRequest s)]
                            else
                              comments <- JSON_parse body ;;
                              callback [AVal VNull; AVal comments]
                          end)
                  end)
          end)
    end).

(** *** Lines 229-246 *)
Definition getCommsPromisifiedHandleErrs (username postTitle : string)
  : promise jsValue :=
  then_ (then_ (then_ (then_
    (a <- read_apiURL ;; reqPromise ((a ++ "users/") ++ username))
    (fun body =>
       user <- JSON_parse (VStr body) ;;
       a <- read_apiURL ;;
       user_id <- lift (get_id user) ;;
       reqPromise ((a ++ "blogs/") ++ toStr user_id)))
    (fun body =>
       blog <- JSON_parse (VStr body) ;;
       a <- read_apiURL ;;
       blog_id <- lift (get_id blog) ;;
       reqPromise ((((a ++ "blogposts/") ++ toStr blog_id) ++ "/") ++ postTitle)))
    (fun body =>
       post <- JSON_parse (VStr body) ;;
       a <- read_apiURL ;;
       post_id <- lift (get_id post) ;;
       reqPromise ((a ++ "comments/") ++ toStr post_id)))
    (fun body =>
       JSON_parse (VStr body)).

End Script.

(** ** What the caller sees *)

(** The caller's view of one delivery: the value of a success, the reason of
    a failure. *)
Inductive chainResult : Type :=
| Success (value : arg)
| Failure (reason : arg).

Definition arg_truthy (a : arg) : bool :=
  match a with
  | AVal v => truthy v
  | AErr _ => true
  end.

(** The callback of line 294, [function (comments) {...}]: whatever comes
    first is the comments. *)
Definition valueOnly (args : list arg) : chainResult :=
  Success (nth 0 args (AVal VUndefined)).

(** The callback of line 322, [function (err, comments) { if (err) ... }]. *)
Definition errorFirst (args : list arg) : chainResult :=
  let err := nth 0 args (AVal VUndefined) in
  let comments := nth 1 args (AVal VUndefined) in
  if arg_truthy err then Failure err else Success comments.

(** The [.then(...)] and [.catch(...)] of lines 336-340. *)
Definition settled (r : jsError + jsValue) : chainResult :=
  match r with
  | inr v => Success (AVal v)
  | inl e => Failure (AErr e)
  end.

Fixpoint urls (l : list event) : list string :=
  match l with
  | [] => []
  | Request u :: rest => u :: urls rest
  | Callback _ :: rest => urls rest
  end.

Fixpoint callbacks (l : list event) : list (list arg) :=
  match l with
  | [] => []
  | Request _ :: rest => callbacks rest
  | Callback a :: rest => a :: callbacks rest
  end.

(** One execution, observed from outside: the locators requested, in order;
    the results delivered to the caller, in order; the exception that
    escaped, if one did; the module state left behind. *)
Record observation : Type :=
  Observation {
    requests : list string;
    delivered : list chainResult;
    uncaught : option jsError;
    globals_after : globals
  }.

Definition observe_callbacks (view : list arg -> chainResult) (o : outcome unit)
  : observation :=
  {| requests := urls (log o);
     delivered := map view (callbacks (log o));
     uncaught := match ret o with inl e => Some e | inr _ => None end;
     globals_after := store o |}.

(** A promise chain never lets an exception escape: it ends up in the
    returned promise. *)
Definition observe_promise (o : outcome jsValue) : observation :=
  {| requests := urls (log o);
     delivered := [settled (ret o)];
     uncaught := None;
     globals_after := store o |}.

(** A callback that only records that it was called. *)
Definition record (args : list arg) : M unit := emit (Callback args).

(** The five chains of the script. *)
Inductive variant : Type :=
| Callbacks
| Promisified
| Promisified2
| CallbacksHandleErrs
| PromisifiedHandleErrs.

Definition usesPromises (v : variant) : bool :=
  match v with
  | Callbacks | CallbacksHandleErrs => false
  | _ => true
  end.

Section Runs.

Variable JSON_parse_text : string -> option jsValue.
Variable respond : string -> response.
Variable settle : string -> jsError + string.

Definition run (v : variant) (username postTitle : string) (g : globals)
  : observation :=
  match v with
  | Callbacks =>
      observe_callbacks valueOnly
        (getComments JSON_parse_text respond username postTitle record g)
  | Promisified =>
      observe_promise
        (getCommsPromisified JSON_parse_text settle username postTitle g)
  | Promisified2 =>
      observe_promise
        (getCommsPromisified2 JSON_parse_text settle username postTitle g)
  | CallbacksHandleErrs =>
      observe_callbacks errorFirst
        (getCommentsHandleErrs JSON_parse_text respond username postTitle record g)
  | PromisifiedHandleErrs =>
      observe_promise
        (getCommsPromisifiedHandleErrs JSON_parse_text settle username postTitle g)
  end.

(** The body a step of the chain goes on with, if it goes on: [getComments]
    takes the body of any response, [getCommentsHandleErrs] that of a
    response with status 200, a promise chain the body its promise is
    fulfilled with. *)
Definition fetched (v : variant) (url : string) : option string :=
  match v with
  | Callbacks =>
      match respond url with
      | Reply _ b => Some b
      | NetError _ => None
      end
  | CallbacksHandleErrs =>
      match respond url with
      | Reply s b => if (s =? 200)%Z then Some b else None
      | NetError _ => None
      end
  | _ =>
      match settle url with
      | inr b => Some b
      | inl _ => None
      end
  end.

(** The failure a step reports, if it reports one: [getCommentsHandleErrs]
    the transport error or the [Error] built from a status other than 200,
    a promise chain the reason its promise is rejected with.
    [getComments] reports none. *)
Definition reported (v : variant) (url : string) : option jsError :=
  match v with
  | Callbacks => None
  | CallbacksHandleErrs =>
      match respond url with
      | NetError e => Some e
      | Reply s _ => if (s =? 200)%Z then None else Some (failedRequest s)
      end
  | _ =>
      match settle url with
      | inr _ => None
      | inl e => Some e
      end
  end.

End Runs.

(** The path segment of the fourth request: line 202 writes ['/comments/'],
    lines 38, 115, 154 and 241 write ['comments/']. *)
Definition commentsSegment (v : variant) : string :=
  match v with
  | CallbacksHandleErrs => "/comments/"
  | _ => "comments/"
  end.

(** The four locators, named. *)
Definition usersURL (g : globals) (username : string) : string :=
  (apiURL g ++ "users/") ++ username.

Definition blogsURL (g : globals) (user_id : jsValue) : string :=
  (apiURL g ++ "blogs/") ++ toStr user_id.

Definition blogpostsURL (g : globals) (blog_id : jsValue) (postTitle : string)
  : string :=
  (((apiURL g ++ "blogposts/") ++ toStr blog_id) ++ "/") ++ postTitle.

Definition commentsURL (v : variant) (g : globals) (post_id : jsValue) : string :=
  (apiURL g ++ commentsSegment v) ++ toStr post_id.

(** ** [request-promise] and the status *)

(** The reason a request is rejected with for its status. *)
Definition statusCodeError (s : Z) : jsError :=
  RequestFailure ("StatusCodeError: " ++ numToStr s).

(** Modelled from the spec: [request-promise], the library behind
    [reqPromise], which is not under [src/].  Section 4.1 of the
    specification: a transport failure carries the raw cause; only status 200
    is accepted, and any other status is a failure that carries the observed
    status code; an accepted response gives its body. *)
Definition settleByStatus (respond : string -> response) (url : string)
  : jsError + string :=
  match respond url with
  | NetError e => inl e
  | Reply s b => if (s =? 200)%Z then inr b else inl (statusCodeError s)
  end.

(** ** The chain as a fold *)

(** The five functions spell out four steps by hand.  Read as the resolver
    the specification describes, each is one fold over the steps that remain:
    issue the pending request; stop at a failure; otherwise parse the text,
    take its [id], build the next locator, and go on.  [run_is_chain] below
    shows that this reading is exact. *)

Section Chain.

Variable JSON_parse_text : string -> option jsValue.
Variable respond : string -> response.
Variable settle : string -> jsError + string.

(** What a step does with the answer to its request: the failure it
    reports, or the text it hands to [JSON.parse].  [getComments] looks at
    neither the error nor the status and parses [body], which is [undefined]
    after a transport error. *)
Definition stepText (v : variant) (url : string) : jsError + string :=
  match v with
  | Callbacks =>
      match respond url with
      | NetError _ => inr (toStr VUndefined)
      | Reply _ b => inr b
      end
  | CallbacksHandleErrs =>
      match respond url with
      | NetError e => inl e
      | Reply s b => if (s =? 200)%Z then inr b else inl (failedRequest s)
      end
  | _ => settle url
  end.

(** A run that ends after the request to [url] with one delivery. *)
Definition ends (g : globals) (url : string) (r : chainResult) : observation :=
  {| requests := [url]; delivered := [r]; uncaught := None; globals_after := g |}.

(** A run in which [e] is thrown after the request to [url]: a promise chain
    turns it into a rejection, a callback chain lets it escape. *)
Definition throws (v : variant) (g : globals) (url : string) (e : jsError)
  : observation :=
  if usesPromises v then ends g url (Failure (AErr e))
  else {| requests := [url]; delivered := []; uncaught := Some e;
          globals_after := g |}.

(** A run that goes on as [o] after the request to [url]. *)
Definition after (url : string) (o : observation) : observation :=
  {| requests := url :: requests o; delivered := delivered o;
     uncaught := uncaught o; globals_after := globals_after o |}.

Fixpoint chainFrom (v : variant) (g : globals) (url : string)
    (rest : list (jsValue -> string)) : observation :=
  match stepText v url with
  | inl e => ends g url (Failure (AErr e))
  | inr text =>
      match JSON_parse_text text with
      | None => throws v g url (SyntaxError text)
      | Some parsed =>
          match rest with
          | [] => ends g url (Success (AVal parsed))
          | next :: rest' =>
              match get_id parsed with
              | inl e => throws v g url e
              | inr id => after url (chainFrom v g (next id) rest')
              end
          end
      end
  end.

(** The three locators that depend on an earlier step, in order. *)
Definition laterSteps (v : variant) (g : globals) (postTitle : string)
  : list (jsValue -> string) :=
  [ blogsURL g; (fun blog_id => blogpostsURL g blog_id postTitle); commentsURL v g ].

Definition chain (v : variant) (username postTitle : string) (g : globals)
  : observation :=
  chainFrom v g (usersURL g username) (laterSteps v g postTitle).

End Chain.

(** ** A sample server *)

Definition dquote : string := String "034"%char EmptyString.

Definition idBody (n : string) : string :=
  "{" ++ dquote ++ "id" ++ dquote ++ ":" ++ n ++ "}".

Definition commentsBody : string :=
  "[{" ++ dquote ++ "text" ++ dquote ++ ":" ++ dquote ++ "nice" ++ dquote ++ "}]".

Fixpoint assoc {A} (key : string) (table : list (string * A)) : option A :=
  match table with
  | [] => None
  | (k, a) :: rest => if String.eqb k key then Some a else assoc key rest
  end.

(** [JSON.parse] on the texts the sample server sends; every other text that
    occurs below (["undefined"], ["Not Found"], ["<html>"]) is not JSON. *)
Definition sampleParse (text : string) : option jsValue :=
  assoc text
    [ (idBody "7", VObj [("id", VNum 7)]);
      (idBody "42", VObj [("id", VNum 42)]);
      (idBody "99", VObj [("id", VNum 99)]);
      (commentsBody, VArr [VObj [("text", VStr "nice")]]);
      ("null", VNull) ].

(** Peter (user 7) has blog 42, whose post Promise-Chaining is post 99 and
    has one comment.  The server also answers the locator with the doubled
    slash.  Everything else is not found. *)
Definition blogServer (url : string) : response :=
  match
    assoc url
      [ ("http://ctrl-alt-create.net/api/users/peter", idBody "7");
        ("http://ctrl-alt-create.net/api/blogs/7", idBody "42");
        ("http://ctrl-alt-create.net/api/blogposts/42/Promise-Chaining", idBody "99");
        ("http://ctrl-alt-create.net/api/comments/99", commentsBody);
        ("http://ctrl-alt-create.net/api//comments/99", commentsBody) ]
  with
  | Some b => Reply 200 b
  | None => Reply 404 "Not Found"
  end.

(** The same server behind [request-promise]. *)
Definition blogServerPromise (url : string) : jsError + string :=
  match blogServer url with
  | NetError e => inl e
  | Reply s b =>
      if (s =? 200)%Z then inr b
      else inl (RequestFailure ("StatusCodeError: " ++ numToStr s))
  end.



(** A server that cannot be reached. *)
Definition unreachable (url : string) : response :=
  NetError (RequestFailure "ECONNREFUSED").

Definition unreachablePromise (url : string) : jsError + string :=
  inl (RequestFailure "ECONNREFUSED").

(** ** The calls at the end of the script (lines 293-343) *)

(** [p.catch(h)]: a fulfilled [p] skips [h]; [h] runs on the reason of a
    rejected [p], and what it returns or throws settles the result. *)
Definition catch_ {A} (p : promise A) (h : jsError -> promise A) : promise A :=
  fun g =>
    match p g with
    | Outcome l g' (inl e) =>
        match h e g' with
        | Outcome l' g'' r => Outcome (l ++ l')%list g'' r
        end
    | Outcome l g' (inr a) => Outcome l g' (inr a)
    end.

Definition backslash : string := String "092"%char EmptyString.

Section TopLevel.

Variable JSON_parse_text : string -> option jsValue.
Variable respond : string -> response.
Variable settle : string -> jsError + string.

(** [console.log(...)] and [console.error(...)]: the console is outside
    the script, like the two request libraries. *)
Variable console_log : list arg -> M unit.
Variable console_error : list arg -> M unit.

(** [err.stack] *)
Variable stack : jsError -> jsValue.

(** The four calls, each made from the callback of the one before.  Nothing
    catches what the first three let out, so at this level [inl e] reads: the
    script stops with [e] unhandled, an exception that escaped a callback or
    the rejection of a promise without a [catch]. *)
Definition main : M unit :=
  getComments JSON_parse_text respond "peter" "Promise-Chaining" (fun args =>
    let comments := nth 0 args (AVal VUndefined) in
    console_log [comments] ;;
    console_log [] ;;
    console_log [AVal (VStr ("/---------------------------" ++ backslash))] ;;
    console_log [AVal (VStr "|Now the Promisified version|")] ;;
    console_log [AVal (VStr (backslash ++ "---------------------------/"))] ;;
    console_log [] ;;
    then_ (then_
      (getCommsPromisified JSON_parse_text settle "peter" "Promise-Chaining")
      (fun comments =>
         console_log [AVal comments]))
      (fun _ =>
         console_log [] ;;
         console_log [AVal (VStr ("/-------------------" ++ backslash))] ;;
         console_log [AVal (VStr "|Now for some errors|")] ;;
         console_log [AVal (VStr (backslash ++ "-------------------/"))] ;;
         console_log [] ;;
         getCommentsHandleErrs JSON_parse_text respond "peter" "Not-A-Real-Post"
           (fun args =>
              let err := nth 0 args (AVal VUndefined) in
              let comments := nth 1 args (AVal VUndefined) in
              (if arg_truthy err then console_error [err]
               else console_log [comments]) ;;
              console_log [] ;;
              console_log [AVal (VStr ("/---------------------------" ++ backslash))] ;;
              console_log [AVal (VStr "|Now the Promisified version|")] ;;
              console_log [AVal (VStr (backslash ++ "---------------------------/"))] ;;
              console_log [] ;;
              catch_ (then_
                (getCommsPromisifiedHandleErrs JSON_parse_text settle
                   "peter" "Will-Cause-An-Error")
                (fun comments =>
                   console_log [AVal comments]))
                (fun err =>
                   console_error [AVal (stack err)])))).

End TopLevel.

(** A console call that returns, issues no request and leaves the module
    state alone. *)
Definition quiet (f : list arg -> M unit) : Prop :=
  forall args g,
    store (f args g) = g /\ ret (f args g) = inr tt /\ urls (log (f args g)) = [].

(** A console that prints nowhere. *)
Definition silent (args : list arg) : M unit := pure tt.

Definition sampleStack (e : jsError) : jsValue := VStr "Error".

(** The requests [requested], and then what [next] does. *)
Definition followedBy (requested : list string) (next : outcome unit)
  : outcome unit :=
  Outcome (map Request requested ++ log next)%list (store next) (ret next).

(** A server that answers every request with status 418 and a user with
    id 7. *)
Definition teapotServer (url : string) : response :=
  Reply 418 (idBody "7").

(** A server that answers every request with status 200 and [null]. *)
Definition nullServer (url : string) : response :=
  Reply 200 "null".

Definition nullServerPromise (url : string) : jsError + string :=
  inr "null".

(** A server that answers every request with status 200 and an object
    without fields; [JSON.parse] on that text too. *)
Definition emptyObjectServer (url : string) : response :=
  Reply 200 "{}".

Definition emptyObjectServerPromise (url : string) : jsError + string :=
  inr "{}".

Definition sampleParseWithEmptyObject (text : string) : option jsValue :=
  if String.eqb text "{}" then Some (VObj []) else sampleParse text.

(** ** Proof tools *)

(** Unfold the script down to the calls of the collaborators. *)
Ltac script_unfold :=
  cbv beta iota zeta delta
    [run observe_callbacks observe_promise settled
     getComments getCommsPromisified getCommsPromisified2
     getCommentsHandleErrs getCommsPromisifiedHandleErrs
     then_ bind pure throw emit read_apiURL lift request reqPromise
     JSON_parse get_statusCode record log store ret statusCode negb
     chain laterSteps chainFrom stepText ends throws after usesPromises
     requests delivered uncaught globals_after
     usersURL blogsURL blogpostsURL commentsURL commentsSegment];
  cbn [toStr urls callbacks map app].

(** Split on the next thing the run depends on: a response, a status test, a
    parse, a member access. *)
Ltac script_case :=
  match goal with
  | H : ?f ?u = _ |- context [match ?f ?u with _ => _ end] => rewrite H
  | H : (?s =? 200)%Z = _ |- context [if (?s =? 200)%Z then _ else _] =>
      rewrite H
  | |- context [match ?f ?u with NetError _ => _ | Reply _ _ => _ end] =>
      destruct (f u) eqn:?
  | |- context [match ?f ?u with inl _ => _ | inr _ => _ end] =>
      destruct (f u) eqn:?
  | |- context [match ?f ?u with Some _ => _ | None => _ end] =>
      destruct (f u) eqn:?
  | |- context [if (?s =? 200)%Z then _ else _] =>
      destruct (s =? 200)%Z eqn:?
  end; script_unfold.

Ltac script_cases := script_unfold; repeat script_case.

Section Properties.

Variable JSON_parse_text : string -> option jsValue.
Variable respond : string -> response.
Variable settle : string -> jsError + string.

Local Abbreviation run := (run JSON_parse_text respond settle).
Local Abbreviation chain := (chain JSON_parse_text respond settle).
Local Abbreviation chainFrom := (chainFrom JSON_parse_text respond settle).
Local Abbreviation stepText := (stepText respond settle).
Local Abbreviation reported := (reported respond settle).
Local Abbreviation fetched := (fetched respond settle).

(** Each of the five functions is the fold, step for step. *)
Lemma run_is_chain (v : variant) (username postTitle : string) (g : globals) :
  run v username postTitle g = chain v username postTitle g.
Proof.
  assert (P : run Promisified username postTitle g
               = chain Promisified username postTitle g)
    by (script_cases; reflexivity).
  destruct v.
  - script_cases; reflexivity.
  - exact P.
  - exact P.
  - script_cases; reflexivity.
  - exact P.
Qed.

(** *** How the statements' vocabulary reads in the fold *)

Lemma reported_stepText (v : variant) (url : string) (e : jsError) :
  reported v url = Some e <-> stepText v url = inl e.
Proof.
  unfold reported, stepText.
  destruct v; try (destruct (settle url); split; congruence);
    destruct (respond url) as [err | s b]; try destruct (s =? 200)%Z;
    split; congruence.
Qed.

Lemma fetched_stepText (v : variant) (url b : string) :
  fetched v url = Some b -> stepText v url = inr b.
Proof.
  unfold fetched, stepText.
  destruct v; try (destruct (settle url); congruence);
    destruct (respond url) as [err | s b']; try destruct (s =? 200)%Z;
    congruence.
Qed.

(** *** The fold, by induction on the steps that remain *)

Lemma requests_throws (v : variant) (g : globals) (url : string) (e : jsError) :
  requests (throws v g url e) = [url].
Proof.
  unfold throws; destruct (usesPromises v); reflexivity.
Qed.

Lemma chainFrom_unfold (v : variant) (g : globals) (url : string)
    (rest : list (jsValue -> string)) :
  chainFrom v g url rest =
    match stepText v url with
    | inl e => ends g url (Failure (AErr e))
    | inr text =>
        match JSON_parse_text text with
        | None => throws v g url (SyntaxError text)
        | Some parsed =>
            match rest with
            | [] => ends g url (Success (AVal parsed))
            | next :: rest' =>
                match get_id parsed with
                | inl e => throws v g url e
                | inr id => after url (chainFrom v g (next id) rest')
                end
            end
        end
    end.
Proof.
  destruct rest; reflexivity.
Qed.

(** Induction along a run of the fold: the four ways a run can end at its
    first request, and the one way it can go on. *)
Lemma chainFrom_run_ind (v : variant) (g : globals)
    (P : string -> list (jsValue -> string) -> observation -> Prop) :
  (forall url rest e,
     stepText v url = inl e ->
     P url rest (ends g url (Failure (AErr e)))) ->
  (forall url rest text,
     stepText v url = inr text -> JSON_parse_text text = None ->
     P url rest (throws v g url (SyntaxError text))) ->
  (forall url text parsed,
     stepText v url = inr text -> JSON_parse_text text = Some parsed ->
     P url [] (ends g url (Success (AVal parsed)))) ->
  (forall url next rest text parsed e,
     stepText v url = inr text -> JSON_parse_text text = Some parsed ->
     get_id parsed = inl e ->
     P url (next :: rest) (throws v g url e)) ->
  (forall url next rest text parsed id,
     stepText v url = inr text -> JSON_parse_text text = Some parsed ->
     get_id parsed = inr id ->
     P (next id) rest (chainFrom v g (next id) rest) ->
     P url (next :: rest) (after url (chainFrom v g (next id) rest))) ->
  forall rest url, P url rest (chainFrom v g url rest).
Proof.
  intros Hfail Hparse Hlast Hid Hnext.
  induction rest as [ | next rest IH]; intros url; rewrite chainFrom_unfold.
  - destruct (stepText v url) as [e | text] eqn:Hs; [now apply Hfail | ].
    destruct (JSON_parse_text text) as [parsed | ] eqn:Hp;
      [now apply Hlast with text | now apply Hparse].
  - destruct (stepText v url) as [e | text] eqn:Hs; [now apply Hfail | ].
    destruct (JSON_parse_text text) as [parsed | ] eqn:Hp;
      [ | now apply Hparse].
    destruct (get_id parsed) as [e | id] eqn:Hg;
      [now apply Hid with text parsed | ].
    apply Hnext with text parsed; auto.
Qed.

(** The fold issues at most one request per step, the first to [url]. *)
Lemma chainFrom_length (v : variant) (g : globals)
    (rest : list (jsValue -> string)) (url : string) :
  (length (requests (chainFrom v g url rest)) <= S (length rest))%nat.
Proof.
  revert rest url.
  apply (chainFrom_run_ind v g
           (fun _ rest o => (length (requests o) <= S (length rest))%nat));
    intros; rewrite ?requests_throws; cbn in *; lia.
Qed.

Lemma chainFrom_first (v : variant) (g : globals)
    (rest : list (jsValue -> string)) (url : string) :
  nth_error (requests (chainFrom v g url rest)) 0 = Some url.
Proof.
  revert rest url.
  apply (chainFrom_run_ind v g
           (fun url _ o => nth_error (requests o) 0 = Some url));
    intros; rewrite ?requests_throws; reflexivity.
Qed.

(** A request whose step reports a failure is the last one, and the failure
    is the one result. *)
Lemma chainFrom_failure (v : variant) (g : globals)
    (rest : list (jsValue -> string)) (url : string) :
  forall i u e,
    nth_error (requests (chainFrom v g url rest)) i = Some u ->
    stepText v u = inl e ->
    length (requests (chainFrom v g url rest)) = S i /\
    delivered (chainFrom v g url rest) = [Failure (AErr e)] /\
    uncaught (chainFrom v g url rest) = None.
Proof.
  revert rest url.
  apply (chainFrom_run_ind v g
           (fun _ _ o =>
              forall i u e,
                nth_error (requests o) i = Some u ->
                stepText v u = inl e ->
                length (requests o) = S i /\
                delivered o = [Failure (AErr e)] /\ uncaught o = None));
    cbv beta.
  - intros url rest e0 Hs [ | i] u e' Hi He; cbn in Hi; [ | now destruct i].
    injection Hi as <-. rewrite Hs in He; injection He as <-. now cbn.
  - intros url rest text0 Hs Hp [ | i] u e Hi He; rewrite requests_throws in Hi; cbn in Hi;
      [ | now destruct i].
    injection Hi as <-. congruence.
  - intros url text0 parsed0 Hs Hp [ | i] u e Hi He; cbn in Hi; [ | now destruct i].
    injection Hi as <-. congruence.
  - intros url next rest text0 parsed0 e0 Hs Hp Hg [ | i] u e' Hi He; rewrite requests_throws in Hi; cbn in Hi;
      [ | now destruct i].
    injection Hi as <-. congruence.
  - intros url next rest text0 parsed0 id0 Hs Hp Hg IH [ | i] u e Hi He; cbn in Hi.
    + injection Hi as <-. congruence.
    + destruct (IH i u e Hi He) as (Hl & Hd & Hu). cbn. now rewrite Hl.
Qed.

(** A request whose step hands [JSON.parse] a text it rejects is the last
    one, and the [SyntaxError] ends the run the way a thrown exception
    does. *)
Lemma chainFrom_parse_failure (v : variant) (g : globals)
    (rest : list (jsValue -> string)) (url : string) :
  forall i u text,
    nth_error (requests (chainFrom v g url rest)) i = Some u ->
    stepText v u = inr text ->
    JSON_parse_text text = None ->
    length (requests (chainFrom v g url rest)) = S i /\
    delivered (chainFrom v g url rest) =
      delivered (throws v g u (SyntaxError text)) /\
    uncaught (chainFrom v g url rest) =
      uncaught (throws v g u (SyntaxError text)).
Proof.
  revert rest url.
  apply (chainFrom_run_ind v g
           (fun _ _ o =>
              forall i u text,
                nth_error (requests o) i = Some u ->
                stepText v u = inr text ->
                JSON_parse_text text = None ->
                length (requests o) = S i /\
                delivered o = delivered (throws v g u (SyntaxError text)) /\
                uncaught o = uncaught (throws v g u (SyntaxError text))));
    cbv beta.
  - intros url rest e0 Hs [ | i] u text' Hi He; cbn in Hi; [ | now destruct i].
    injection Hi as <-. congruence.
  - intros url rest text0 Hs Hp [ | i] u text' Hi He Hn; rewrite requests_throws in *;
      cbn in Hi; [ | now destruct i].
    injection Hi as <-. rewrite Hs in He; injection He as <-. now cbn.
  - intros url text0 parsed0 Hs Hp [ | i] u text' Hi He Hn; cbn in Hi; [ | now destruct i].
    injection Hi as <-. congruence.
  - intros url next rest text0 parsed0 e0 Hs Hp Hg [ | i] u text' Hi He Hn; rewrite requests_throws in Hi;
      cbn in Hi; [ | now destruct i].
    injection Hi as <-. congruence.
  - intros url next rest text0 parsed0 id0 Hs Hp Hg IH [ | i] u text' Hi He Hn; cbn in Hi.
    + injection Hi as <-. congruence.
    + destruct (IH i u text' Hi He Hn) as (Hl & Hd & Hu). cbn. now rewrite Hl.
Qed.

(** A request whose step hands [JSON.parse] a text it accepts is followed by
    the request the next step builds from the parsed [id]; after the last
    step, the parsed text is the one result, a success. *)
Lemma chainFrom_progress (v : variant) (g : globals)
    (rest : list (jsValue -> string)) (url : string) :
  forall i u text parsed,
    nth_error (requests (chainFrom v g url rest)) i = Some u ->
    stepText v u = inr text ->
    JSON_parse_text text = Some parsed ->
    (i = length rest ->
       delivered (chainFrom v g url rest) = [Success (AVal parsed)] /\
       uncaught (chainFrom v g url rest) = None) /\
    (forall next id,
       nth_error rest i = Some next -> get_id parsed = inr id ->
       nth_error (requests (chainFrom v g url rest)) (S i) = Some (next id)).
Proof.
  revert rest url.
  apply (chainFrom_run_ind v g
           (fun _ rest o =>
              forall i u text parsed,
                nth_error (requests o) i = Some u ->
                stepText v u = inr text ->
                JSON_parse_text text = Some parsed ->
                (i = length rest ->
                   delivered o = [Success (AVal parsed)] /\ uncaught o = None) /\
                (forall next id,
                   nth_error rest i = Some next -> get_id parsed = inr id ->
                   nth_error (requests o) (S i) = Some (next id))));
    cbv beta.
  - intros url rest e0 Hs [ | i] u text' parsed' Hi He; cbn in Hi; [ | now destruct i].
    injection Hi as <-. congruence.
  - intros url rest text0 Hs Hp [ | i] u text' parsed' Hi He Hn; rewrite requests_throws in *;
      cbn in Hi; [ | now destruct i].
    injection Hi as <-. congruence.
  - intros url text0 parsed0 Hs Hp [ | i] u text' parsed' Hi He Hn; cbn in Hi; [ | now destruct i].
    injection Hi as <-. rewrite Hs in He; injection He as <-.
    rewrite Hp in Hn; injection Hn as <-.
    split; [now cbn | intros next id Hnext; discriminate Hnext].
  - intros url next rest text0 parsed0 e0 Hs Hp Hg [ | i] u text' parsed' Hi He Hn; rewrite requests_throws in *;
      cbn in Hi; [ | now destruct i].
    injection Hi as <-. rewrite Hs in He; injection He as <-.
    rewrite Hp in Hn; injection Hn as <-.
    split; [discriminate | ].
    intros next' id Hnext Hid'. congruence.
  - intros url next rest text0 parsed0 id0 Hs Hp Hg IH [ | i] u text' parsed' Hi He Hn; cbn in Hi.
    + injection Hi as <-. rewrite Hs in He; injection He as <-.
      rewrite Hp in Hn; injection Hn as <-.
      split; [discriminate | ].
      intros next' id' Hnext Hid'. cbn in Hnext; injection Hnext as <-.
      rewrite Hg in Hid'; injection Hid' as <-.
      cbn. apply chainFrom_first.
    + destruct (IH i u text' parsed' Hi He Hn) as (Hlast & Hgo).
      split.
      * intros Hlen. cbn in Hlen. injection Hlen as Hlen. now apply Hlast.
      * intros next' id' Hnext Hid'. cbn in Hnext. cbn.
        now apply Hgo.
Qed.

(** No run assigns to [apiURL]. *)
Lemma chainFrom_keeps_globals (v : variant) (g : globals)
    (rest : list (jsValue -> string)) (url : string) :
  globals_after (chainFrom v g url rest) = g.
Proof.
  revert rest url.
  apply (chainFrom_run_ind v g (fun _ _ o => globals_after o = g));
    intros; unfold throws; try destruct (usesPromises v); auto.
Qed.

Lemma run_keeps_globals (v : variant) (username postTitle : string) (g : globals) :
  globals_after (run v username postTitle g) = g.
Proof.
  rewrite run_is_chain. apply chainFrom_keeps_globals.
Qed.

(** The run in which every step succeeds. *)
Lemma success_run (v : variant) (g : globals) (username postTitle : string)
    (b0 b1 b2 b3 : string) (user blog post comments user_id blog_id post_id : jsValue) :
  stepText v (usersURL g username) = inr b0 ->
  JSON_parse_text b0 = Some user ->
  get_id user = inr user_id ->
  stepText v (blogsURL g user_id) = inr b1 ->
  JSON_parse_text b1 = Some blog ->
  get_id blog = inr blog_id ->
  stepText v (blogpostsURL g blog_id postTitle) = inr b2 ->
  JSON_parse_text b2 = Some post ->
  get_id post = inr post_id ->
  stepText v (commentsURL v g post_id) = inr b3 ->
  JSON_parse_text b3 = Some comments ->
  run v username postTitle g =
    {| requests := [usersURL g username; blogsURL g user_id;
                    blogpostsURL g blog_id postTitle; commentsURL v g post_id];
       delivered := [Success (AVal comments)];
       uncaught := None;
       globals_after := g |}.
Proof.
  intros F0 P0 I0 F1 P1 I1 F2 P2 I2 F3 P3.
  rewrite run_is_chain. unfold chain, laterSteps.
  rewrite chainFrom_unfold, F0, P0, I0.
  rewrite chainFrom_unfold, F1, P1, I1.
  rewrite chainFrom_unfold, F2, P2, I2.
  rewrite chainFrom_unfold, F3, P3.
  reflexivity.
Qed.

(** C1. When every step succeeds (its request completes, with status 200
    where the chain tests the status, and its body parses), the chain
    delivers exactly one result, the success carrying the parsed body of the
    comments request; it has issued exactly the four requests, in order, each
    locator built from the [id] of the previous step's parsed body, the first
    from [username], the third also from [postTitle]. *)
Theorem all_steps_succeed (v : variant) (g : globals) (username postTitle : string)
    (b0 b1 b2 b3 : string) (user blog post comments user_id blog_id post_id : jsValue) :
  fetched v (usersURL g username) = Some b0 ->
  JSON_parse_text b0 = Some user ->
  get_id user = inr user_id ->
  fetched v (blogsURL g user_id) = Some b1 ->
  JSON_parse_text b1 = Some blog ->
  get_id blog = inr blog_id ->
  fetched v (blogpostsURL g blog_id postTitle) = Some b2 ->
  JSON_parse_text b2 = Some post ->
  get_id post = inr post_id ->
  fetched v (commentsURL v g post_id) = Some b3 ->
  JSON_parse_text b3 = Some comments ->
  run v username postTitle g =
    {| requests := [usersURL g username; blogsURL g user_id;
                    blogpostsURL g blog_id postTitle; commentsURL v g post_id];
       delivered := [Success (AVal comments)];
       uncaught := None;
       globals_after := g |}.
Proof.
  intros F0 P0 I0 F1 P1 I1 F2 P2 I2 F3 P3.
  apply success_run with b0 b1 b2 b3 user blog post;
    auto using fetched_stepText.
Qed.

(** A reported failure ends the run. *)
Lemma reported_failure_ends_run (v : variant) (g : globals) (username postTitle : string)
    (i : nat) (url : string) (e : jsError) :
  nth_error (requests (run v username postTitle g)) i = Some url ->
  reported v url = Some e ->
  length (requests (run v username postTitle g)) = S i /\
  delivered (run v username postTitle g) = [Failure (AErr e)] /\
  uncaught (run v username postTitle g) = None.
Proof.
  rewrite run_is_chain. intros Hi He.
  apply reported_stepText in He.
  now apply chainFrom_failure with url.
Qed.

(** C2. When a step of a chain that reports failures fails (for
    [getCommentsHandleErrs]: a transport error or a status other than 200;
    for a promise chain: a rejected request), the failing request is the last
    one issued, the chain delivers exactly one result, the failure with that
    cause, and nothing escapes. *)
Theorem failure_halts_chain (v : variant) (g : globals) (username postTitle : string)
    (i : nat) (url : string) (e : jsError) :
  nth_error (requests (run v username postTitle g)) i = Some url ->
  reported v url = Some e ->
  length (requests (run v username postTitle g)) = S i /\
  delivered (run v username postTitle g) = [Failure (AErr e)] /\
  uncaught (run v username postTitle g) = None.
Proof.
  apply reported_failure_ends_run.
Qed.

(** A text that parses is gone on with: to the next request, built from
    its [id], or, after the comments request, to the success. *)
Lemma run_progress (v : variant) (g : globals) (username postTitle : string)
    (i : nat) (url text : string) (parsed : jsValue) :
  nth_error (requests (run v username postTitle g)) i = Some url ->
  stepText v url = inr text ->
  JSON_parse_text text = Some parsed ->
  (i = 3%nat ->
     delivered (run v username postTitle g) = [Success (AVal parsed)] /\
     uncaught (run v username postTitle g) = None) /\
  (i <> 3%nat ->
     forall next_id, get_id parsed = inr next_id ->
       nth_error (requests (run v username postTitle g)) (S i) =
         Some (match i with
               | O => blogsURL g next_id
               | S O => blogpostsURL g next_id postTitle
               | _ => commentsURL v g next_id
               end)).
Proof.
  rewrite run_is_chain. unfold chain. intros Hi Ht Hp.
  destruct (chainFrom_progress _ _ _ _ _ _ _ _ Hi Ht Hp) as (Hlast & Hgo).
  split; [exact Hlast | ].
  intros Hi3 next_id Hid.
  assert (Hlen : (i < 4)%nat).
  { apply Nat.lt_le_trans
      with (length (requests (chainFrom v g (usersURL g username)
                                (laterSteps v g postTitle)))).
    - apply nth_error_Some. now rewrite Hi.
    - apply chainFrom_length. }
  destruct i as [ | [ | [ | i]]];
    [ apply (Hgo (blogsURL g))
    | apply (Hgo (fun blog_id => blogpostsURL g blog_id postTitle))
    | apply (Hgo (commentsURL v g))
    | lia ];
    (reflexivity || assumption).
Qed.

(** A promise chain stops at a rejected request and goes on after a
    fulfilled one whose body parses. *)
Lemma promise_step_boundary (v : variant) (g : globals)
    (username postTitle : string) (i : nat) (url : string) :
  usesPromises v = true ->
  nth_error (requests (run v username postTitle g)) i = Some url ->
  (forall e, settle url = inl e ->
     length (requests (run v username postTitle g)) = S i /\
     delivered (run v username postTitle g) = [Failure (AErr e)] /\
     uncaught (run v username postTitle g) = None) /\
  (forall b parsed, settle url = inr b -> JSON_parse_text b = Some parsed ->
     (i = 3%nat ->
        delivered (run v username postTitle g) = [Success (AVal parsed)] /\
        uncaught (run v username postTitle g) = None) /\
     (i <> 3%nat ->
        forall next_id, get_id parsed = inr next_id ->
          nth_error (requests (run v username postTitle g)) (S i) =
            Some (match i with
                  | O => blogsURL g next_id
                  | S O => blogpostsURL g next_id postTitle
                  | _ => commentsURL v g next_id
                  end))).
Proof.
  intros Hv Hi.
  assert (Hst : stepText v url = settle url)
    by (destruct v; try discriminate Hv; reflexivity).
  split.
  - intros e He. apply reported_failure_ends_run with url; [exact Hi | ].
    apply reported_stepText. now rewrite Hst.
  - intros b parsed Hb Hp. apply run_progress with url b; auto.
    now rewrite Hst.
Qed.

(** In [getCommentsHandleErrs], a response with a status other than 200
    ends the chain, whatever its body; a response with status 200 is gone on
    with. *)
Lemma handleErrs_status_boundary (g : globals) (username postTitle : string)
    (i : nat) (url : string) (s : Z) (b : string) :
  nth_error (requests (run CallbacksHandleErrs username postTitle g)) i = Some url ->
  respond url = Reply s b ->
  (s <> 200%Z ->
     length (requests (run CallbacksHandleErrs username postTitle g)) = S i /\
     delivered (run CallbacksHandleErrs username postTitle g) =
       [Failure (AErr (Error ("Failed request: status " ++ numToStr s)))] /\
     uncaught (run CallbacksHandleErrs username postTitle g) = None) /\
  (s = 200%Z ->
     forall parsed, JSON_parse_text b = Some parsed ->
       (i = 3%nat ->
          delivered (run CallbacksHandleErrs username postTitle g) =
            [Success (AVal parsed)] /\
          uncaught (run CallbacksHandleErrs username postTitle g) = None) /\
       (i <> 3%nat ->
          forall next_id, get_id parsed = inr next_id ->
            nth_error (requests (run CallbacksHandleErrs username postTitle g)) (S i) =
              Some (match i with
                    | O => blogsURL g next_id
                    | S O => blogpostsURL g next_id postTitle
                    | _ => commentsURL CallbacksHandleErrs g next_id
                    end))).
Proof.
  rewrite run_is_chain. unfold chain. intros Hi Hr.
  split.
  - intros Hs.
    apply chainFrom_failure with url; [exact Hi | ].
    unfold stepText. rewrite Hr.
    apply Z.eqb_neq in Hs. now rewrite Hs.
  - intros -> parsed Hp.
    assert (Ht : stepText CallbacksHandleErrs url = inr b)
      by (unfold stepText; now rewrite Hr).
    destruct (chainFrom_progress _ _ _ _ _ _ _ _ Hi Ht Hp) as (Hlast & Hgo).
    split; [exact Hlast | ].
    intros Hi3 next_id Hid.
    assert (Hlen : (i < 4)%nat).
    { apply Nat.lt_le_trans
        with (length (requests (chainFrom CallbacksHandleErrs g
                                  (usersURL g username)
                                  (laterSteps CallbacksHandleErrs g postTitle)))).
      - apply nth_error_Some. now rewrite Hi.
      - apply chainFrom_length. }
    destruct i as [ | [ | [ | i]]];
      [ apply (Hgo (blogsURL g))
      | apply (Hgo (fun blog_id => blogpostsURL g blog_id postTitle))
      | apply (Hgo (commentsURL CallbacksHandleErrs g))
      | lia ];
      (reflexivity || assumption).
Qed.

(** What [getCommentsHandleErrs] does, event by event: its requests, then
    its calls of the callback; and a failure is called back with the cause
    as the only argument. *)
Lemma handleErrs_log (username postTitle : string) (g : globals) :
  log (getCommentsHandleErrs JSON_parse_text respond username postTitle record g) =
    (map Request (requests (run CallbacksHandleErrs username postTitle g)) ++
     map Callback
       (callbacks
          (log (getCommentsHandleErrs JSON_parse_text respond
                  username postTitle record g))))%list /\
  (forall e,
     delivered (run CallbacksHandleErrs username postTitle g) = [Failure (AErr e)] ->
     callbacks
       (log (getCommentsHandleErrs JSON_parse_text respond
               username postTitle record g)) = [[AErr e]]).
Proof.
  script_cases;
    (split;
     [ reflexivity
     | intros e He;
       cbv beta iota zeta delta [errorFirst arg_truthy truthy nth] in He;
       congruence ]).
Qed.


(** C5 (amended). When a step of [getCommentsHandleErrs] fails, the events
    of the run are its requests up to the failing one and then a single call
    of the callback, with the cause as its only argument: the transport
    error as [request] reported it, or the [Error] whose message is
    ['Failed request: status '] followed by the status.  The value holds no
    step index. *)
Theorem failure_cause_called_back_once (g : globals) (username postTitle : string)
    (i : nat) (url : string) (e : jsError) :
  nth_error (requests (run CallbacksHandleErrs username postTitle g)) i = Some url ->
  reported CallbacksHandleErrs url = Some e ->
  log (getCommentsHandleErrs JSON_parse_text respond username postTitle record g) =
    (map Request (requests (run CallbacksHandleErrs username postTitle g)) ++
     [Callback [AErr e]])%list /\
  length (requests (run CallbacksHandleErrs username postTitle g)) = S i /\
  (forall err, respond url = NetError err -> e = err) /\
  (forall s b, respond url = Reply s b ->
     e = Error ("Failed request: status " ++ numToStr s)).
Proof.
  intros Hi He.
  destruct (handleErrs_log username postTitle g) as (Hlog & Hcb).
  assert (Hrep := He). apply reported_stepText in Hrep.
  rewrite run_is_chain in Hi, Hcb.
  destruct (chainFrom_failure _ _ _ _ _ _ _ Hi Hrep) as (Hl & Hd & _).
  split; [ | split; [now rewrite run_is_chain | ] ].
  - rewrite Hlog at 1. now rewrite (Hcb e Hd).
  - unfold reported in He.
    split.
    + intros err Hr. rewrite Hr in He. congruence.
    + intros s b Hr. rewrite Hr in He.
      destruct (s =? 200)%Z; [discriminate | ].
      injection He as <-. reflexivity.
Qed.

(** C6 (amended). A promise chain always delivers exactly one result and
    lets nothing escape: a rejected request makes that result the failure
    with the reason of the rejection, a body that [JSON.parse] rejects makes
    it the failure with the [SyntaxError].  [getCommentsHandleErrs] delivers
    a transport error or a status other than 200 as the failure handed to
    the callback, and nothing escapes.  [getComments] handles no failure:
    after a transport error it parses [undefined], delivers nothing, and the
    [SyntaxError] escapes. *)
Theorem failures_reach_the_caller (g : globals) (username postTitle : string) :
  (forall v, usesPromises v = true ->
     uncaught (run v username postTitle g) = None /\
     (exists r, delivered (run v username postTitle g) = [r]) /\
     (forall i url,
        nth_error (requests (run v username postTitle g)) i = Some url ->
        (forall e, settle url = inl e ->
           delivered (run v username postTitle g) = [Failure (AErr e)]) /\
        (forall b, settle url = inr b -> JSON_parse_text b = None ->
           delivered (run v username postTitle g) =
             [Failure (AErr (SyntaxError b))]))) /\
  (forall i url e,
     nth_error (requests (run CallbacksHandleErrs username postTitle g)) i = Some url ->
     reported CallbacksHandleErrs url = Some e ->
     delivered (run CallbacksHandleErrs username postTitle g) = [Failure (AErr e)] /\
     uncaught (run CallbacksHandleErrs username postTitle g) = None) /\
  (forall i url err,
     nth_error (requests (run Callbacks username postTitle g)) i = Some url ->
     respond url = NetError err ->
     JSON_parse_text "undefined" = None ->
     delivered (run Callbacks username postTitle g) = [] /\
     uncaught (run Callbacks username postTitle g) = Some (SyntaxError "undefined")).
Proof.
  split; [ | split].
  - intros v Hv.
    split; [now destruct v | ].
    split; [destruct v; try discriminate Hv; eexists; reflexivity | ].
    rewrite run_is_chain. intros i url Hi.
    assert (Hst : stepText v url = settle url) by now destruct v.
    split.
    + intros e He. rewrite He in Hst.
      now destruct (chainFrom_failure _ _ _ _ _ _ _ Hi Hst) as (_ & Hd & _).
    + intros b Hb Hp. rewrite Hb in Hst.
      destruct (chainFrom_parse_failure _ _ _ _ _ _ _ Hi Hst Hp) as (_ & Hd & _).
      unfold chain. rewrite Hd. unfold throws. now rewrite Hv.
  - rewrite run_is_chain. intros i url e Hi He.
    apply reported_stepText in He.
    now destruct (chainFrom_failure _ _ _ _ _ _ _ Hi He) as (_ & Hd & Hu).
  - rewrite run_is_chain. intros i url err Hi Hr Hp.
    assert (Hst : stepText Callbacks url = inr "undefined")
      by (unfold stepText; now rewrite Hr).
    destruct (chainFrom_parse_failure _ _ _ _ _ _ _ Hi Hst Hp) as (_ & Hd & Hu).
    unfold chain. now rewrite Hd, Hu.
Qed.

(** C7 (amended). [getCommentsHandleErrs('peter', 'Not-A-Real-Post', ...)],
    when the user and blog requests succeed and the blog post request comes
    back with status 404: exactly those three requests are issued, in order
    (the failing one is the third, index 2; no comments request follows), and
    the one result is the failure [Error] with the message
    ['Failed request: status 404'], a value with no step index in it. *)
Theorem not_a_real_post (g : globals) (b0 b1 body : string)
    (user blog user_id blog_id : jsValue) :
  respond (usersURL g "peter") = Reply 200 b0 ->
  JSON_parse_text b0 = Some user ->
  get_id user = inr user_id ->
  respond (blogsURL g user_id) = Reply 200 b1 ->
  JSON_parse_text b1 = Some blog ->
  get_id blog = inr blog_id ->
  respond (blogpostsURL g blog_id "Not-A-Real-Post") = Reply 404 body ->
  run CallbacksHandleErrs "peter" "Not-A-Real-Post" g =
    {| requests := [usersURL g "peter"; blogsURL g user_id;
                    blogpostsURL g blog_id "Not-A-Real-Post"];
       delivered := [Failure (AErr (Error "Failed request: status 404"))];
       uncaught := None;
       globals_after := g |}.
Proof.
  intros R0 P0 I0 R1 P1 I1 R2.
  rewrite run_is_chain. unfold chain, laterSteps.
  rewrite chainFrom_unfold; unfold stepText at 1;
    rewrite R0; cbn [Z.eqb Pos.eqb]; rewrite P0, I0.
  rewrite chainFrom_unfold; unfold stepText at 1;
    rewrite R1; cbn [Z.eqb Pos.eqb]; rewrite P1, I1.
  rewrite chainFrom_unfold; unfold stepText at 1;
    rewrite R2; cbn [Z.eqb Pos.eqb].
  reflexivity.
Qed.

(** C8. A run leaves the module state as it found it, so the same call made
    again afterwards, against the same collaborator, is the same run: same
    requests, same result delivered. *)
Theorem runs_are_repeatable (v : variant) (g : globals) (username postTitle : string) :
  globals_after (run v username postTitle g) = g /\
  run v username postTitle (globals_after (run v username postTitle g)) =
    run v username postTitle g.
Proof.
  split; [apply run_keeps_globals | now rewrite run_keeps_globals].
Qed.

End Properties.

(** C3. A response with status 200 is a success and any other status a
    failure that carries the status and halts the chain, whatever the body.
    In [getCommentsHandleErrs], which tests the status itself, the failure
    is the [Error] whose message ends in the status.  In the promise chains,
    where [request-promise] tests it, the failure is the rejection for that
    status.  In both, the request with the other status is the last one and
    the failure is the one result; a response with status 200 has its body
    parsed and, when it parses, its [id] feeds the next request, or, for the
    comments request, the parsed body is delivered as the success. *)
Theorem status_boundary (JSON_parse_text : string -> option jsValue)
    (respond : string -> response) (settle : string -> jsError + string)
    (g : globals) (username postTitle : string)
    (i : nat) (url : string) (s : Z) (b : string) :
  respond url = Reply s b ->
  (nth_error
     (requests (run JSON_parse_text respond settle
                  CallbacksHandleErrs username postTitle g)) i = Some url ->
   (s <> 200%Z ->
      length (requests (run JSON_parse_text respond settle
                          CallbacksHandleErrs username postTitle g)) = S i /\
      delivered (run JSON_parse_text respond settle
                   CallbacksHandleErrs username postTitle g) =
        [Failure (AErr (Error ("Failed request: status " ++ numToStr s)))] /\
      uncaught (run JSON_parse_text respond settle
                  CallbacksHandleErrs username postTitle g) = None) /\
   (s = 200%Z ->
      forall parsed, JSON_parse_text b = Some parsed ->
        (i = 3%nat ->
           delivered (run JSON_parse_text respond settle
                        CallbacksHandleErrs username postTitle g) =
             [Success (AVal parsed)] /\
           uncaught (run JSON_parse_text respond settle
                       CallbacksHandleErrs username postTitle g) = None) /\
        (i <> 3%nat ->
           forall next_id, get_id parsed = inr next_id ->
             nth_error
               (requests (run JSON_parse_text respond settle
                            CallbacksHandleErrs username postTitle g)) (S i) =
               Some (match i with
                     | O => blogsURL g next_id
                     | S O => blogpostsURL g next_id postTitle
                     | _ => commentsURL CallbacksHandleErrs g next_id
                     end)))) /\
  (forall v,
     usesPromises v = true ->
     nth_error
       (requests (run JSON_parse_text respond (settleByStatus respond)
                    v username postTitle g)) i = Some url ->
     (s <> 200%Z ->
        length (requests (run JSON_parse_text respond (settleByStatus respond)
                            v username postTitle g)) = S i /\
        delivered (run JSON_parse_text respond (settleByStatus respond)
                     v username postTitle g) =
          [Failure (AErr (statusCodeError s))] /\
        uncaught (run JSON_parse_text respond (settleByStatus respond)
                    v username postTitle g) = None) /\
     (s = 200%Z ->
        forall parsed, JSON_parse_text b = Some parsed ->
          (i = 3%nat ->
             delivered (run JSON_parse_text respond (settleByStatus respond)
                          v username postTitle g) =
               [Success (AVal parsed)] /\
             uncaught (run JSON_parse_text respond (settleByStatus respond)
                         v username postTitle g) = None) /\
          (i <> 3%nat ->
             forall next_id, get_id parsed = inr next_id ->
               nth_error
                 (requests (run JSON_parse_text respond (settleByStatus respond)
                              v username postTitle g)) (S i) =
                 Some (match i with
                       | O => blogsURL g next_id
                       | S O => blogpostsURL g next_id postTitle
                       | _ => commentsURL v g next_id
                       end)))).
Proof.
  intros Hr. split.
  - intros Hi.
    exact (handleErrs_status_boundary JSON_parse_text respond settle
             g username postTitle i url s b Hi Hr).
  - intros v Hv Hi.
    destruct (promise_step_boundary JSON_parse_text respond
                (settleByStatus respond) v g username postTitle i url Hv Hi)
      as (Hrej & Hful).
    split.
    + intros Hs. apply Hrej.
      unfold settleByStatus. rewrite Hr.
      apply Z.eqb_neq in Hs. now rewrite Hs.
    + intros -> parsed Hp. apply Hful with b; [ | exact Hp].
      unfold settleByStatus. now rewrite Hr.
Qed.

(** C9. The three promise-based functions are one and the same function of
    their inputs and collaborators.  [getCommsPromisifiedHandleErrs] handles
    no error inside the chain: when a request of its run is rejected, it is
    the last request and the returned promise is rejected with that very
    reason. *)
Theorem promise_variants_agree (JSON_parse_text : string -> option jsValue)
    (settle : string -> jsError + string) :
  getCommsPromisified JSON_parse_text settle =
    getCommsPromisified2 JSON_parse_text settle /\
  getCommsPromisified2 JSON_parse_text settle =
    getCommsPromisifiedHandleErrs JSON_parse_text settle /\
  (forall username postTitle g i url e,
     nth_error
       (urls (log (getCommsPromisifiedHandleErrs JSON_parse_text settle
                     username postTitle g))) i = Some url ->
     settle url = inl e ->
     length
       (urls (log (getCommsPromisifiedHandleErrs JSON_parse_text settle
                     username postTitle g))) = S i /\
     ret (getCommsPromisifiedHandleErrs JSON_parse_text settle
            username postTitle g) = inl e).
Proof.
  split; [reflexivity | split; [reflexivity | ] ].
  intros username postTitle g i url e Hi He.
  set (o := run JSON_parse_text unreachable settle
              PromisifiedHandleErrs username postTitle g).
  change (urls (log (getCommsPromisifiedHandleErrs JSON_parse_text settle
                       username postTitle g)))
    with (requests o) in *.
  assert (Hd : delivered o =
               [settled (ret (getCommsPromisifiedHandleErrs JSON_parse_text settle
                                username postTitle g))]) by reflexivity.
  assert (Hr : reported unreachable settle PromisifiedHandleErrs url = Some e)
    by (cbn; now rewrite He).
  destruct (reported_failure_ends_run JSON_parse_text unreachable settle
              PromisifiedHandleErrs g username postTitle i url e Hi Hr)
    as (Hl & Hf & _).
  split; [exact Hl | ].
  fold o in Hf. rewrite Hf in Hd.
  destruct (ret _); cbn in Hd; congruence.
Qed.


(** ** The sample server, run *)

(** The fourth locator of [getCommentsHandleErrs] is never the one the
    other chains request. *)
Lemma commentsURL_differs (g : globals) (post_id : jsValue) :
  commentsURL CallbacksHandleErrs g post_id <> commentsURL Callbacks g post_id.
Proof.
  unfold commentsURL, commentsSegment.
  induction (apiURL g) as [ | c a IH]; cbn; intros H.
  - discriminate H.
  - injection H as H. now apply IH.
Qed.

(** C1, on the sample server: [getCommsPromisified2('peter',
    'Promise-Chaining')]. *)
Lemma all_steps_succeed_witness :
  (fetched blogServer blogServerPromise Promisified2
     (usersURL initial_globals "peter") = Some (idBody "7") /\
   sampleParse (idBody "7") = Some (VObj [("id", VNum 7)]) /\
   get_id (VObj [("id", VNum 7)]) = inr (VNum 7) /\
   fetched blogServer blogServerPromise Promisified2
     (blogsURL initial_globals (VNum 7)) = Some (idBody "42") /\
   sampleParse (idBody "42") = Some (VObj [("id", VNum 42)]) /\
   get_id (VObj [("id", VNum 42)]) = inr (VNum 42) /\
   fetched blogServer blogServerPromise Promisified2
     (blogpostsURL initial_globals (VNum 42) "Promise-Chaining") = Some (idBody "99") /\
   sampleParse (idBody "99") = Some (VObj [("id", VNum 99)]) /\
   get_id (VObj [("id", VNum 99)]) = inr (VNum 99) /\
   fetched blogServer blogServerPromise Promisified2
     (commentsURL Promisified2 initial_globals (VNum 99)) = Some commentsBody /\
   sampleParse commentsBody = Some (VArr [VObj [("text", VStr "nice")]])) /\
  run sampleParse blogServer blogServerPromise Promisified2
    "peter" "Promise-Chaining" initial_globals =
    {| requests := ["http://ctrl-alt-create.net/api/users/peter";
                    "http://ctrl-alt-create.net/api/blogs/7";
                    "http://ctrl-alt-create.net/api/blogposts/42/Promise-Chaining";
                    "http://ctrl-alt-create.net/api/comments/99"];
       delivered := [Success (AVal (VArr [VObj [("text", VStr "nice")]]))];
       uncaught := None;
       globals_after := initial_globals |}.
Proof.
  split; [repeat split | ].
  exact (all_steps_succeed sampleParse blogServer blogServerPromise
           Promisified2 initial_globals "peter" "Promise-Chaining"
           (idBody "7") (idBody "42") (idBody "99") commentsBody
           (VObj [("id", VNum 7)]) (VObj [("id", VNum 42)])
           (VObj [("id", VNum 99)]) (VArr [VObj [("text", VStr "nice")]])
           (VNum 7) (VNum 42) (VNum 99)
           eq_refl eq_refl eq_refl eq_refl eq_refl eq_refl
           eq_refl eq_refl eq_refl eq_refl eq_refl).
Defined.

(** C2, on the sample server: [getCommentsHandleErrs('peter',
    'Not-A-Real-Post', ...)] stops at the blog post request. *)
Lemma failure_halts_chain_witness :
  (nth_error
     (requests (run sampleParse blogServer blogServerPromise CallbacksHandleErrs
                  "peter" "Not-A-Real-Post" initial_globals)) 2 =
     Some "http://ctrl-alt-create.net/api/blogposts/42/Not-A-Real-Post" /\
   reported blogServer blogServerPromise CallbacksHandleErrs
     "http://ctrl-alt-create.net/api/blogposts/42/Not-A-Real-Post" =
     Some (Error "Failed request: status 404")) /\
  length
    (requests (run sampleParse blogServer blogServerPromise CallbacksHandleErrs
                 "peter" "Not-A-Real-Post" initial_globals)) = 3%nat /\
  delivered (run sampleParse blogServer blogServerPromise CallbacksHandleErrs
               "peter" "Not-A-Real-Post" initial_globals) =
    [Failure (AErr (Error "Failed request: status 404"))] /\
  uncaught (run sampleParse blogServer blogServerPromise CallbacksHandleErrs
              "peter" "Not-A-Real-Post" initial_globals) = None.
Proof.
  split; [split; reflexivity | ].
  exact (failure_halts_chain sampleParse blogServer blogServerPromise
           CallbacksHandleErrs initial_globals "peter" "Not-A-Real-Post" 2
           "http://ctrl-alt-create.net/api/blogposts/42/Not-A-Real-Post"
           (Error "Failed request: status 404") eq_refl eq_refl).
Defined.

(** C3, on the sample server: the 404 of the blog post request, in
    [getCommentsHandleErrs] and in [getCommsPromisifiedHandleErrs]. *)
Lemma status_boundary_witness :
  (blogServer "http://ctrl-alt-create.net/api/blogposts/42/Not-A-Real-Post" =
     Reply 404 "Not Found" /\
   nth_error
     (requests (run sampleParse blogServer blogServerPromise CallbacksHandleErrs
                  "peter" "Not-A-Real-Post" initial_globals)) 2 =
     Some "http://ctrl-alt-create.net/api/blogposts/42/Not-A-Real-Post" /\
   usesPromises PromisifiedHandleErrs = true /\
   nth_error
     (requests (run sampleParse blogServer (settleByStatus blogServer)
                  PromisifiedHandleErrs
                  "peter" "Not-A-Real-Post" initial_globals)) 2 =
     Some "http://ctrl-alt-create.net/api/blogposts/42/Not-A-Real-Post" /\
   404%Z <> 200%Z) /\
  (length
     (requests (run sampleParse blogServer blogServerPromise CallbacksHandleErrs
                  "peter" "Not-A-Real-Post" initial_globals)) = 3%nat /\
   delivered (run sampleParse blogServer blogServerPromise CallbacksHandleErrs
                "peter" "Not-A-Real-Post" initial_globals) =
     [Failure (AErr (Error "Failed request: status 404"))] /\
   uncaught (run sampleParse blogServer blogServerPromise CallbacksHandleErrs
               "peter" "Not-A-Real-Post" initial_globals) = None) /\
  (length
     (requests (run sampleParse blogServer (settleByStatus blogServer)
                  PromisifiedHandleErrs
                  "peter" "Not-A-Real-Post" initial_globals)) = 3%nat /\
   delivered (run sampleParse blogServer (settleByStatus blogServer)
                PromisifiedHandleErrs
                "peter" "Not-A-Real-Post" initial_globals) =
     [Failure (AErr (RequestFailure "StatusCodeError: 404"))] /\
   uncaught (run sampleParse blogServer (settleByStatus blogServer)
               PromisifiedHandleErrs
               "peter" "Not-A-Real-Post" initial_globals) = None).
Proof.
  assert (H404 : 404%Z <> 200%Z) by discriminate.
  split; [repeat split; exact H404 | ].
  pose (H := status_boundary sampleParse blogServer blogServerPromise
               initial_globals "peter" "Not-A-Real-Post" 2
               "http://ctrl-alt-create.net/api/blogposts/42/Not-A-Real-Post"
               404 "Not Found" eq_refl).
  split.
  - exact (proj1 (proj1 H eq_refl) H404).
  - exact (proj1 (proj2 H PromisifiedHandleErrs eq_refl eq_refl) H404).
Defined.



(** C5 fails as stated: the failure delivered holds no step index.  On the
    sample server, [getCommentsHandleErrs('nobody', ...)] fails at its first
    request and [getCommentsHandleErrs('peter', 'Not-A-Real-Post', ...)] at
    its third, and both deliver the same value, so nothing computed from the
    value is the index of the failing step. *)
Lemma failure_value_has_no_step_index :
  ~ exists stepIndex : arg -> nat,
      forall username postTitle reason,
        delivered (run sampleParse blogServer blogServerPromise CallbacksHandleErrs
                     username postTitle initial_globals) = [Failure reason] ->
        length
          (requests (run sampleParse blogServer blogServerPromise
                       CallbacksHandleErrs username postTitle initial_globals)) =
          S (stepIndex reason).
Proof.
  intros [stepIndex H].
  pose proof (H "nobody" "Promise-Chaining"
                (AErr (Error "Failed request: status 404")) eq_refl) as H0.
  pose proof (H "peter" "Not-A-Real-Post"
                (AErr (Error "Failed request: status 404")) eq_refl) as H2.
  change (1%nat = S (stepIndex (AErr (Error "Failed request: status 404")))) in H0.
  change (3%nat = S (stepIndex (AErr (Error "Failed request: status 404")))) in H2.
  congruence.
Qed.

(** C5 (amended), against a server that cannot be reached: one request, then
    one call of the callback with the error [request] reported. *)
Lemma failure_cause_called_back_once_witness :
  (nth_error
     (requests (run sampleParse unreachable unreachablePromise CallbacksHandleErrs
                  "peter" "Promise-Chaining" initial_globals)) 0 =
     Some "http://ctrl-alt-create.net/api/users/peter" /\
   reported unreachable unreachablePromise CallbacksHandleErrs
     "http://ctrl-alt-create.net/api/users/peter" =
     Some (RequestFailure "ECONNREFUSED")) /\
  log (getCommentsHandleErrs sampleParse unreachable
         "peter" "Promise-Chaining" record initial_globals) =
    [Request "http://ctrl-alt-create.net/api/users/peter";
     Callback [AErr (RequestFailure "ECONNREFUSED")]].
Proof.
  split; [split; reflexivity | ].
  exact (proj1 (failure_cause_called_back_once sampleParse unreachable
                  unreachablePromise initial_globals "peter" "Promise-Chaining" 0
                  "http://ctrl-alt-create.net/api/users/peter"
                  (RequestFailure "ECONNREFUSED") eq_refl eq_refl)).
Defined.

(** C6 fails as stated: [getComments('peter', 'Promise-Chaining', ...)]
    against a server that cannot be reached never calls its callback; line 30
    parses [undefined] and the [SyntaxError] escapes. *)
Lemma getComments_transport_failure_escapes :
  run sampleParse unreachable unreachablePromise Callbacks
    "peter" "Promise-Chaining" initial_globals =
    {| requests := ["http://ctrl-alt-create.net/api/users/peter"];
       delivered := [];
       uncaught := Some (SyntaxError "undefined");
       globals_after := initial_globals |}.
Proof.
  reflexivity.
Qed.

(** C6 (amended), against the same server: [getCommsPromisified] delivers
    the transport error as its rejection. *)
Lemma failures_reach_the_caller_witness :
  (usesPromises Promisified = true /\
   nth_error
     (requests (run sampleParse unreachable unreachablePromise Promisified
                  "peter" "Promise-Chaining" initial_globals)) 0 =
     Some "http://ctrl-alt-create.net/api/users/peter" /\
   unreachablePromise "http://ctrl-alt-create.net/api/users/peter" =
     inl (RequestFailure "ECONNREFUSED")) /\
  delivered (run sampleParse unreachable unreachablePromise Promisified
               "peter" "Promise-Chaining" initial_globals) =
    [Failure (AErr (RequestFailure "ECONNREFUSED"))].
Proof.
  split; [repeat split | ].
  exact (proj1
           (proj2 (proj2
              (proj1 (failures_reach_the_caller sampleParse unreachable
                        unreachablePromise initial_globals
                        "peter" "Promise-Chaining")
                 Promisified eq_refl))
              0%nat "http://ctrl-alt-create.net/api/users/peter" eq_refl)
           (RequestFailure "ECONNREFUSED") eq_refl).
Defined.

(** C7 fails as stated: the failure delivered in its scenario is the value
    that a failure of the first step delivers too
    ([getCommentsHandleErrs('nobody', 'Not-A-Real-Post', ...)] on the sample
    server), so no step index, 2 in the one run and 0 in the other, is part
    of it. *)
Lemma not_a_real_post_failure_has_no_step_index :
  ~ exists stepIndex : chainResult -> nat,
      (forall r,
         In r (delivered (run sampleParse blogServer blogServerPromise
                            CallbacksHandleErrs "peter" "Not-A-Real-Post"
                            initial_globals)) ->
         stepIndex r = 2%nat) /\
      (forall r,
         In r (delivered (run sampleParse blogServer blogServerPromise
                            CallbacksHandleErrs "nobody" "Not-A-Real-Post"
                            initial_globals)) ->
         stepIndex r = 0%nat).
Proof.
  intros (stepIndex & H2 & H0).
  specialize (H2 (Failure (AErr (Error "Failed request: status 404")))
                 (or_introl eq_refl)).
  specialize (H0 (Failure (AErr (Error "Failed request: status 404")))
                 (or_introl eq_refl)).
  congruence.
Qed.

(** C7 (amended), on the sample server. *)
Lemma not_a_real_post_witness :
  (blogServer (usersURL initial_globals "peter") = Reply 200 (idBody "7") /\
   sampleParse (idBody "7") = Some (VObj [("id", VNum 7)]) /\
   get_id (VObj [("id", VNum 7)]) = inr (VNum 7) /\
   blogServer (blogsURL initial_globals (VNum 7)) = Reply 200 (idBody "42") /\
   sampleParse (idBody "42") = Some (VObj [("id", VNum 42)]) /\
   get_id (VObj [("id", VNum 42)]) = inr (VNum 42) /\
   blogServer (blogpostsURL initial_globals (VNum 42) "Not-A-Real-Post") =
     Reply 404 "Not Found") /\
  run sampleParse blogServer blogServerPromise CallbacksHandleErrs
    "peter" "Not-A-Real-Post" initial_globals =
    {| requests := ["http://ctrl-alt-create.net/api/users/peter";
                    "http://ctrl-alt-create.net/api/blogs/7";
                    "http://ctrl-alt-create.net/api/blogposts/42/Not-A-Real-Post"];
       delivered := [Failure (AErr (Error "Failed request: status 404"))];
       uncaught := None;
       globals_after := initial_globals |}.
Proof.
  split; [repeat split | ].
  exact (not_a_real_post sampleParse blogServer blogServerPromise initial_globals
           (idBody "7") (idBody "42") "Not Found"
           (VObj [("id", VNum 7)]) (VObj [("id", VNum 42)]) (VNum 7) (VNum 42)
           eq_refl eq_refl eq_refl eq_refl eq_refl eq_refl eq_refl).
Defined.

(** C9, on the sample server: [getCommsPromisifiedHandleErrs('peter',
    'Will-Cause-An-Error')] is rejected with the reason of its third
    request. *)
Lemma promise_variants_agree_witness :
  (nth_error
     (urls (log (getCommsPromisifiedHandleErrs sampleParse blogServerPromise
                   "peter" "Will-Cause-An-Error" initial_globals))) 2 =
     Some "http://ctrl-alt-create.net/api/blogposts/42/Will-Cause-An-Error" /\
   blogServerPromise
     "http://ctrl-alt-create.net/api/blogposts/42/Will-Cause-An-Error" =
     inl (RequestFailure "StatusCodeError: 404")) /\
  ret (getCommsPromisifiedHandleErrs sampleParse blogServerPromise
         "peter" "Will-Cause-An-Error" initial_globals) =
    inl (RequestFailure "StatusCodeError: 404").
Proof.
  split; [split; reflexivity | ].
  exact (proj2
           (proj2 (proj2 (promise_variants_agree sampleParse blogServerPromise))
              "peter" "Will-Cause-An-Error" initial_globals 2%nat
              "http://ctrl-alt-create.net/api/blogposts/42/Will-Cause-An-Error"
              (RequestFailure "StatusCodeError: 404") eq_refl eq_refl)).
Defined.

(** C10, on the sample server: [getComments] and [getCommentsHandleErrs],
    both called with ['peter'] and ['Promise-Chaining'], both succeed, and
    their fourth locators differ: line 202 puts a slash before [comments]
    that line 38 does not. *)
Theorem handleErrs_requests_another_comments_locator :
  delivered (run sampleParse blogServer blogServerPromise Callbacks
               "peter" "Promise-Chaining" initial_globals) =
    [Success (AVal (VArr [VObj [("text", VStr "nice")]]))] /\
  delivered (run sampleParse blogServer blogServerPromise CallbacksHandleErrs
               "peter" "Promise-Chaining" initial_globals) =
    [Success (AVal (VArr [VObj [("text", VStr "nice")]]))] /\
  requests (run sampleParse blogServer blogServerPromise Callbacks
              "peter" "Promise-Chaining" initial_globals) =
    ["http://ctrl-alt-create.net/api/users/peter";
     "http://ctrl-alt-create.net/api/blogs/7";
     "http://ctrl-alt-create.net/api/blogposts/42/Promise-Chaining";
     "http://ctrl-alt-create.net/api/comments/99"] /\
  requests (run sampleParse blogServer blogServerPromise CallbacksHandleErrs
              "peter" "Promise-Chaining" initial_globals) =
    ["http://ctrl-alt-create.net/api/users/peter";
     "http://ctrl-alt-create.net/api/blogs/7";
     "http://ctrl-alt-create.net/api/blogposts/42/Promise-Chaining";
     "http://ctrl-alt-create.net/api//comments/99"] /\
  requests (run sampleParse blogServer blogServerPromise Callbacks
              "peter" "Promise-Chaining" initial_globals) <>
  requests (run sampleParse blogServer blogServerPromise CallbacksHandleErrs
              "peter" "Promise-Chaining" initial_globals).
Proof.
  repeat (split; [reflexivity | ]). discriminate.
Qed.

(** ** More of what the chains do *)

Section MoreProperties.

Variable JSON_parse_text : string -> option jsValue.
Variable respond : string -> response.
Variable settle : string -> jsError + string.

Local Abbreviation run := (run JSON_parse_text respond settle).
Local Abbreviation chain := (chain JSON_parse_text respond settle).
Local Abbreviation chainFrom := (chainFrom JSON_parse_text respond settle).
Local Abbreviation stepText := (stepText respond settle).
Local Abbreviation reported := (reported respond settle).
Local Abbreviation fetched := (fetched respond settle).
Local Abbreviation run_ind :=
  (chainFrom_run_ind JSON_parse_text respond settle).
Local Abbreviation run_is_chain :=
  (run_is_chain JSON_parse_text respond settle).


(** A run ends with one result and no exception, or, in a callback chain
    only, with no result and one exception. *)
Lemma chainFrom_one_ending (v : variant) (g : globals)
    (rest : list (jsValue -> string)) (url : string) :
  (exists r, delivered (chainFrom v g url rest) = [r] /\
             uncaught (chainFrom v g url rest) = None) \/
  (exists e, delivered (chainFrom v g url rest) = [] /\
             uncaught (chainFrom v g url rest) = Some e /\
             usesPromises v = false).
Proof.
  revert rest url.
  apply (run_ind v g
           (fun _ _ o =>
              (exists r, delivered o = [r] /\ uncaught o = None) \/
              (exists e, delivered o = [] /\ uncaught o = Some e /\
                         usesPromises v = false)));
    cbv beta; intros; unfold throws;
    try (destruct (usesPromises v) eqn:Hv);
    try (left; eexists; split; reflexivity);
    try (right; eexists; repeat split; reflexivity);
    assumption.
Qed.

(** A member access that throws ends the run at that request. *)
Lemma chainFrom_id_failure (v : variant) (g : globals)
    (rest : list (jsValue -> string)) (url : string) :
  forall i u text parsed e,
    nth_error (requests (chainFrom v g url rest)) i = Some u ->
    stepText v u = inr text ->
    JSON_parse_text text = Some parsed ->
    get_id parsed = inl e ->
    (i < length rest)%nat ->
    length (requests (chainFrom v g url rest)) = S i /\
    delivered (chainFrom v g url rest) = delivered (throws v g u e) /\
    uncaught (chainFrom v g url rest) = uncaught (throws v g u e).
Proof.
  revert rest url.
  apply (run_ind v g
           (fun _ rest o =>
              forall i u text parsed e,
                nth_error (requests o) i = Some u ->
                stepText v u = inr text ->
                JSON_parse_text text = Some parsed ->
                get_id parsed = inl e ->
                (i < length rest)%nat ->
                length (requests o) = S i /\
                delivered o = delivered (throws v g u e) /\
                uncaught o = uncaught (throws v g u e)));
    cbv beta.
  - intros url rest e0 Hs [ | i] u text parsed e Hi Ht; cbn in Hi;
      [ | now destruct i].
    injection Hi as <-. congruence.
  - intros url rest text0 Hs Hp [ | i] u text parsed e Hi Ht Hq;
      rewrite requests_throws in Hi; cbn in Hi; [ | now destruct i].
    injection Hi as <-. congruence.
  - intros url text0 parsed0 Hs Hp i u text parsed e _ _ _ _ Hlt.
    cbn in Hlt. lia.
  - intros url next rest text0 parsed0 e0 Hs Hp Hg [ | i] u text parsed e
      Hi Ht Hq Hid _; rewrite requests_throws in *; cbn in Hi;
      [ | now destruct i].
    injection Hi as <-.
    rewrite Hs in Ht; injection Ht as <-.
    rewrite Hp in Hq; injection Hq as <-.
    rewrite Hg in Hid; injection Hid as <-. now cbn.
  - intros url next rest text0 parsed0 id0 Hs Hp Hg IH [ | i] u text parsed e
      Hi Ht Hq Hid Hlt; cbn in Hi.
    + injection Hi as <-. congruence.
    + cbn in Hlt.
      destruct (IH i u text parsed e Hi Ht Hq Hid ltac:(lia)) as (Hl & Hd & Hu).
      cbn. now rewrite Hl.
Qed.

(** A success is the end of a run that went through every step: each
    request handed [JSON.parse] a text it accepted, and the value delivered
    is the parse of the last one. *)
Lemma chainFrom_success (v : variant) (g : globals)
    (rest : list (jsValue -> string)) (url : string) :
  forall a,
    delivered (chainFrom v g url rest) = [Success a] ->
    length (requests (chainFrom v g url rest)) = S (length rest) /\
    (forall u, In u (requests (chainFrom v g url rest)) ->
       exists text parsed,
         stepText v u = inr text /\ JSON_parse_text text = Some parsed) /\
    (exists u text parsed,
       nth_error (requests (chainFrom v g url rest)) (length rest) = Some u /\
       stepText v u = inr text /\ JSON_parse_text text = Some parsed /\
       a = AVal parsed).
Proof.
  revert rest url.
  apply (run_ind v g
           (fun _ rest o =>
              forall a,
                delivered o = [Success a] ->
                length (requests o) = S (length rest) /\
                (forall u, In u (requests o) ->
                   exists text parsed,
                     stepText v u = inr text /\
                     JSON_parse_text text = Some parsed) /\
                (exists u text parsed,
                   nth_error (requests o) (length rest) = Some u /\
                   stepText v u = inr text /\
                   JSON_parse_text text = Some parsed /\
                   a = AVal parsed)));
    cbv beta.
  - intros url rest e0 Hs a Hd. discriminate Hd.
  - intros url rest text0 Hs Hp a Hd. unfold throws in Hd.
    destruct (usesPromises v); discriminate Hd.
  - intros url text0 parsed0 Hs Hp a Hd. cbn in Hd. injection Hd as <-.
    split; [reflexivity | split].
    + intros u [<- | []]. now exists text0, parsed0.
    + now exists url, text0, parsed0.
  - intros url next rest text0 parsed0 e0 Hs Hp Hg a Hd. unfold throws in Hd.
    destruct (usesPromises v); discriminate Hd.
  - intros url next rest text0 parsed0 id0 Hs Hp Hg IH a Hd.
    destruct (IH a Hd) as (Hl & Hall & u & text & parsed & Hn & Ht & Hq & Ha).
    split; [cbn; now rewrite Hl | split].
    + intros u' [<- | Hin]; [now exists text0, parsed0 | now apply Hall].
    + now exists u, text, parsed.
Qed.


(** A chain that goes on with a text whenever another one does issues the
    same requests as that one, as far as the steps that remain agree. *)
Lemma chainFrom_simulates (v w : variant) (g : globals) :
  (forall url text, stepText v url = inr text -> stepText w url = inr text) ->
  forall rest url rest' i u,
    (forall j, (j < i)%nat -> nth_error rest j = nth_error rest' j) ->
    nth_error (requests (chainFrom v g url rest)) i = Some u ->
    nth_error (requests (chainFrom w g url rest')) i = Some u.
Proof.
  intros Hsim.
  apply (run_ind v g
           (fun url rest o =>
              forall rest' i u,
                (forall j, (j < i)%nat -> nth_error rest j = nth_error rest' j) ->
                nth_error (requests o) i = Some u ->
                nth_error (requests (chainFrom w g url rest')) i = Some u));
    cbv beta.
  - intros url rest e0 Hs rest' [ | i] u _ Hi; cbn in Hi; [ | now destruct i].
    injection Hi as <-. apply chainFrom_first.
  - intros url rest text0 Hs Hp rest' [ | i] u _ Hi;
      rewrite requests_throws in Hi; cbn in Hi; [ | now destruct i].
    injection Hi as <-. apply chainFrom_first.
  - intros url text0 parsed0 Hs Hp rest' [ | i] u _ Hi; cbn in Hi;
      [ | now destruct i].
    injection Hi as <-. apply chainFrom_first.
  - intros url next rest text0 parsed0 e0 Hs Hp Hg rest' [ | i] u _ Hi;
      rewrite requests_throws in Hi; cbn in Hi; [ | now destruct i].
    injection Hi as <-. apply chainFrom_first.
  - intros url next rest text0 parsed0 id0 Hs Hp Hg IH rest' [ | i] u Hagree Hi;
      cbn in Hi.
    + injection Hi as <-. apply chainFrom_first.
    + destruct rest' as [ | next' rest''].
      * specialize (Hagree 0%nat ltac:(lia)). discriminate Hagree.
      * assert (Hnext : next = next')
          by (specialize (Hagree 0%nat ltac:(lia)); cbn in Hagree; congruence).
        subst next'.
        rewrite chainFrom_unfold, (Hsim _ _ Hs), Hp, Hg. cbn.
        apply IH; [ | exact Hi].
        intros j Hj. apply (Hagree (S j)). lia.
Qed.

(** Such a chain also ends in the same success. *)
Lemma chainFrom_simulates_success (v w : variant) (g : globals) :
  (forall url text, stepText v url = inr text -> stepText w url = inr text) ->
  forall rest url a,
    delivered (chainFrom v g url rest) = [Success a] ->
    chainFrom w g url rest = chainFrom v g url rest.
Proof.
  intros Hsim.
  apply (run_ind v g
           (fun url rest o =>
              forall a, delivered o = [Success a] ->
                        chainFrom w g url rest = o));
    cbv beta.
  - intros url rest e0 Hs a Hd. discriminate Hd.
  - intros url rest text0 Hs Hp a Hd. unfold throws in Hd.
    destruct (usesPromises v); discriminate Hd.
  - intros url text0 parsed0 Hs Hp a Hd.
    now rewrite chainFrom_unfold, (Hsim _ _ Hs), Hp.
  - intros url next rest text0 parsed0 e0 Hs Hp Hg a Hd. unfold throws in Hd.
    destruct (usesPromises v); discriminate Hd.
  - intros url next rest text0 parsed0 id0 Hs Hp Hg IH a Hd.
    rewrite chainFrom_unfold, (Hsim _ _ Hs), Hp, Hg.
    now rewrite (IH a Hd).
Qed.

Lemma append_assoc (a b c : string) : (a ++ b) ++ c = a ++ (b ++ c).
Proof.
  induction a as [ | x a IH]; cbn; [reflexivity | now rewrite IH].
Qed.

(** Every locator of a run starts with [base] when the first one and the
    ones the later steps build do. *)
Lemma chainFrom_under (v : variant) (g : globals) (base : string) :
  forall rest url,
    (exists s, url = base ++ s) ->
    (forall next id, In next rest -> exists s, next id = base ++ s) ->
    forall u, In u (requests (chainFrom v g url rest)) ->
              exists s, u = base ++ s.
Proof.
  apply (run_ind v g
           (fun url rest o =>
              (exists s, url = base ++ s) ->
              (forall next id, In next rest -> exists s, next id = base ++ s) ->
              forall u, In u (requests o) -> exists s, u = base ++ s));
    cbv beta.
  - intros url rest e0 Hs Hu _ u [<- | []]. exact Hu.
  - intros url rest text0 Hs Hp Hu _ u Hin. rewrite requests_throws in Hin.
    destruct Hin as [<- | []]. exact Hu.
  - intros url text0 parsed0 Hs Hp Hu _ u [<- | []]. exact Hu.
  - intros url next rest text0 parsed0 e0 Hs Hp Hg Hu _ u Hin.
    rewrite requests_throws in Hin. destruct Hin as [<- | []]. exact Hu.
  - intros url next rest text0 parsed0 id0 Hs Hp Hg IH Hu Hrest u [<- | Hin];
      [exact Hu | ].
    apply IH; auto.
    + apply Hrest. now left.
    + intros next' id' Hin'. apply Hrest. now right.
Qed.

(** What [getComments] does, event by event: its requests, then its calls
    of the callback; and a success is called back as the only argument. *)
Lemma getComments_log (username postTitle : string) (g : globals) :
  log (getComments JSON_parse_text respond username postTitle record g) =
    (map Request (requests (run Callbacks username postTitle g)) ++
     map Callback
       (callbacks
          (log (getComments JSON_parse_text respond
                  username postTitle record g))))%list /\
  (forall a,
     delivered (run Callbacks username postTitle g) = [Success a] ->
     callbacks
       (log (getComments JSON_parse_text respond
               username postTitle record g)) = [[a]]).
Proof.
  script_cases;
    (split;
     [ reflexivity
     | intros a Ha;
       cbv beta iota zeta delta [valueOnly nth] in Ha;
       congruence ]).
Qed.

(** When [getCommentsHandleErrs] succeeds, it calls back with [null] and
    the value. *)
Lemma handleErrs_success_args (username postTitle : string) (g : globals) :
  forall a,
    delivered (run CallbacksHandleErrs username postTitle g) = [Success a] ->
    callbacks
      (log (getCommentsHandleErrs JSON_parse_text respond
              username postTitle record g)) = [[AVal VNull; a]].
Proof.
  script_cases; intros a Ha;
    cbv beta iota zeta delta [errorFirst arg_truthy truthy nth] in Ha;
    congruence.
Qed.

(** The steps after the first, counted. *)
Lemma laterSteps_length (v : variant) (g : globals) (postTitle : string) :
  length (laterSteps v g postTitle) = 3%nat.
Proof.
  reflexivity.
Qed.

(** X1. [getComments] never looks at the status: a response with any
    status whose body parses is gone on with, to the next request built from
    its [id] or, for the comments request, to the success. *)
Theorem getComments_ignores_status (g : globals) (username postTitle : string)
    (i : nat) (url : string) (s : Z) (b : string) (parsed : jsValue) :
  nth_error (requests (run Callbacks username postTitle g)) i = Some url ->
  respond url = Reply s b ->
  JSON_parse_text b = Some parsed ->
  (i = 3%nat ->
     delivered (run Callbacks username postTitle g) = [Success (AVal parsed)] /\
     uncaught (run Callbacks username postTitle g) = None) /\
  (i <> 3%nat ->
     forall next_id, get_id parsed = inr next_id ->
       nth_error (requests (run Callbacks username postTitle g)) (S i) =
         Some (match i with
               | O => blogsURL g next_id
               | S O => blogpostsURL g next_id postTitle
               | _ => commentsURL Callbacks g next_id
               end)).
Proof.
  rewrite run_is_chain. unfold chain. intros Hi Hr Hp.
  assert (Ht : stepText Callbacks url = inr b)
    by (unfold stepText; now rewrite Hr).
  destruct (chainFrom_progress JSON_parse_text respond settle
              _ _ _ _ _ _ _ _ Hi Ht Hp) as (Hlast & Hgo).
  split; [exact Hlast | ].
  intros Hi3 next_id Hid.
  assert (Hlen : (i < 4)%nat).
  { apply Nat.lt_le_trans
      with (length (requests (chainFrom Callbacks g (usersURL g username)
                                (laterSteps Callbacks g postTitle)))).
    - apply nth_error_Some. now rewrite Hi.
    - apply (chainFrom_length JSON_parse_text respond settle). }
  destruct i as [ | [ | [ | i]]];
    [ apply (Hgo (blogsURL g))
    | apply (Hgo (fun blog_id => blogpostsURL g blog_id postTitle))
    | apply (Hgo (commentsURL Callbacks g))
    | lia ];
    (reflexivity || assumption).
Qed.

(** X2. Reading [.id] of [null]: when the body of the user, blog or blog
    post request parses to [null], that request is the last one and the
    [TypeError] ends the run: a promise chain is rejected with it, a
    callback chain delivers nothing and lets it escape. *)
Theorem null_has_no_id (v : variant) (g : globals) (username postTitle : string)
    (i : nat) (url b : string) :
  (i < 3)%nat ->
  nth_error (requests (run v username postTitle g)) i = Some url ->
  fetched v url = Some b ->
  JSON_parse_text b = Some VNull ->
  length (requests (run v username postTitle g)) = S i /\
  (usesPromises v = true ->
     delivered (run v username postTitle g) = [Failure (AErr (TypeError "id"))] /\
     uncaught (run v username postTitle g) = None) /\
  (usesPromises v = false ->
     delivered (run v username postTitle g) = [] /\
     uncaught (run v username postTitle g) = Some (TypeError "id")).
Proof.
  rewrite run_is_chain. unfold chain. intros Hlt Hi Hf Hp.
  apply (fetched_stepText respond settle) in Hf.
  destruct (chainFrom_id_failure _ _ _ _ _ _ _ _ (TypeError "id") Hi Hf Hp
              eq_refl Hlt) as (Hl & Hd & Hu).
  split; [exact Hl | ].
  rewrite Hd, Hu. unfold throws.
  split; intros ->; now split.
Qed.

(** X3. A parsed body without an [id] does not stop a chain: [.id] is
    [undefined], and the next request goes to the locator with the text
    [undefined] in the place of the id. *)
Theorem missing_id_requests_undefined (v : variant) (g : globals)
    (username postTitle : string) (i : nat) (url b : string)
    (fields : list (string * jsValue)) :
  (i < 3)%nat ->
  nth_error (requests (run v username postTitle g)) i = Some url ->
  fetched v url = Some b ->
  JSON_parse_text b = Some (VObj fields) ->
  lookupField "id" fields = VUndefined ->
  nth_error (requests (run v username postTitle g)) (S i) =
    Some (match i with
          | O => (apiURL g ++ "blogs/") ++ "undefined"
          | S O => (((apiURL g ++ "blogposts/") ++ "undefined") ++ "/") ++ postTitle
          | _ => (apiURL g ++ commentsSegment v) ++ "undefined"
          end).
Proof.
  rewrite run_is_chain. unfold chain. intros Hlt Hi Hf Hp Hno.
  apply (fetched_stepText respond settle) in Hf.
  destruct (chainFrom_progress JSON_parse_text respond settle
              _ _ _ _ _ _ _ _ Hi Hf Hp) as (_ & Hgo).
  assert (Hid : get_id (VObj fields) = inr VUndefined)
    by (cbn; now rewrite Hno).
  destruct i as [ | [ | [ | i]]];
    [ apply (Hgo (blogsURL g) VUndefined)
    | apply (Hgo (fun blog_id => blogpostsURL g blog_id postTitle) VUndefined)
    | apply (Hgo (commentsURL v g) VUndefined)
    | lia ];
    (reflexivity || assumption).
Qed.

(** A run ends with one result, or with one exception. *)
Lemma run_one_ending (v : variant) (g : globals) (username postTitle : string) :
  (exists r, delivered (run v username postTitle g) = [r] /\
             uncaught (run v username postTitle g) = None) \/
  (exists e, delivered (run v username postTitle g) = [] /\
             uncaught (run v username postTitle g) = Some e /\
             usesPromises v = false).
Proof.
  rewrite run_is_chain. apply chainFrom_one_ending.
Qed.


(** X5. Every run issues at least one request and at most four, and the
    first is the users locator built from [apiURL] and [username],
    whatever the arguments are. *)
Theorem request_bounds (v : variant) (g : globals) (username postTitle : string) :
  nth_error (requests (run v username postTitle g)) 0 =
    Some ((apiURL g ++ "users/") ++ username) /\
  (1 <= length (requests (run v username postTitle g)) <= 4)%nat.
Proof.
  rewrite run_is_chain. unfold chain.
  pose proof (chainFrom_first JSON_parse_text respond settle v g
                (laterSteps v g postTitle) (usersURL g username)) as H0.
  pose proof (chainFrom_length JSON_parse_text respond settle v g
                (laterSteps v g postTitle) (usersURL g username)) as H4.
  split; [exact H0 | ].
  destruct (requests _); [discriminate H0 | ].
  cbn in *. lia.
Qed.

(** X6. A success is delivered only at the end of all four steps: the run
    has issued four requests, no step has reported a failure, and the value
    is what [JSON.parse] made of the text of the fourth.  For
    [getCommentsHandleErrs] this means that all four responses had status
    200. *)
Theorem success_needs_four_steps (v : variant) (g : globals)
    (username postTitle : string) (a : arg) :
  delivered (run v username postTitle g) = [Success a] ->
  length (requests (run v username postTitle g)) = 4%nat /\
  (forall url, In url (requests (run v username postTitle g)) ->
     reported v url = None) /\
  (v = CallbacksHandleErrs ->
   forall url, In url (requests (run v username postTitle g)) ->
     exists b, respond url = Reply 200 b) /\
  (exists url text parsed,
     nth_error (requests (run v username postTitle g)) 3 = Some url /\
     stepText v url = inr text /\
     JSON_parse_text text = Some parsed /\
     a = AVal parsed).
Proof.
  rewrite run_is_chain. unfold chain. intros Hd.
  destruct (chainFrom_success _ _ _ _ _ Hd) as (Hl & Hall & Hlast).
  split; [exact Hl | split; [ | split; [ | exact Hlast] ] ].
  - intros url Hin. destruct (Hall url Hin) as (text & parsed & Ht & _).
    destruct (reported v url) as [e | ] eqn:He; [ | reflexivity].
    apply (reported_stepText respond settle) in He. congruence.
  - intros -> url Hin. destruct (Hall url Hin) as (text & parsed & Ht & _).
    unfold stepText in Ht.
    destruct (respond url) as [err | s b]; [discriminate Ht | ].
    destruct (s =? 200)%Z eqn:Hs; [ | discriminate Ht].
    apply Z.eqb_eq in Hs. subst s. now exists b.
Qed.

(** X7. The callback chains issue all their requests before they call
    back, and the callback is the last thing they do.  [getComments] calls
    back with the value alone, [getCommentsHandleErrs] with [null] and the
    value. *)
Theorem callback_comes_last (g : globals) (username postTitle : string) (a : arg) :
  (delivered (run Callbacks username postTitle g) = [Success a] ->
   log (getComments JSON_parse_text respond username postTitle record g) =
     (map Request (requests (run Callbacks username postTitle g)) ++
      [Callback [a]])%list) /\
  (delivered (run CallbacksHandleErrs username postTitle g) = [Success a] ->
   log (getCommentsHandleErrs JSON_parse_text respond username postTitle record g) =
     (map Request (requests (run CallbacksHandleErrs username postTitle g)) ++
      [Callback [AVal VNull; a]])%list).
Proof.
  split; intros Hd.
  - destruct (getComments_log username postTitle g) as (Hlog & Hcb).
    rewrite Hlog at 1. now rewrite (Hcb a Hd).
  - destruct (handleErrs_log JSON_parse_text respond settle username postTitle g)
      as (Hlog & _).
    rewrite Hlog at 1. now rewrite (handleErrs_success_args _ _ _ a Hd).
Qed.

(** X8. When [request] completes with the body whenever [request-promise]
    is fulfilled with it, a promise chain that is fulfilled and
    [getComments] are the same run: the same four requests and the same
    value delivered. *)
Theorem fulfilled_promise_chain_is_getComments (v : variant) (g : globals)
    (username postTitle : string) (a : arg) :
  usesPromises v = true ->
  (forall url b, settle url = inr b -> exists s, respond url = Reply s b) ->
  delivered (run v username postTitle g) = [Success a] ->
  run Callbacks username postTitle g = run v username postTitle g.
Proof.
  intros Hv Hsame. rewrite !run_is_chain. unfold chain. intros Hd.
  assert (Hsteps : laterSteps Callbacks g postTitle = laterSteps v g postTitle)
    by (destruct v; try discriminate Hv; reflexivity).
  rewrite Hsteps.
  apply chainFrom_simulates_success with a; [ | exact Hd].
  intros url text Ht.
  assert (Hs : settle url = inr text)
    by (destruct v; try discriminate Hv; exact Ht).
  destruct (Hsame url text Hs) as (s & Hr).
  unfold stepText. now rewrite Hr.
Qed.

(** X9. Every request of every run goes to a locator under [apiURL]. *)
Theorem requests_stay_under_apiURL (v : variant) (g : globals)
    (username postTitle url : string) :
  In url (requests (run v username postTitle g)) ->
  exists path, url = apiURL g ++ path.
Proof.
  rewrite run_is_chain. unfold chain.
  apply (chainFrom_under v g (apiURL g)).
  - exists ("users/" ++ username). apply append_assoc.
  - intros next id [<- | [<- | [<- | []]]].
    + exists ("blogs/" ++ toStr id). apply append_assoc.
    + exists ("blogposts/" ++ toStr id ++ "/" ++ postTitle).
      unfold blogpostsURL. now rewrite !append_assoc.
    + exists (commentsSegment v ++ toStr id). apply append_assoc.
Qed.


(** Every request after the first was built by the step before it, from
    the [id] of what its text parsed to. *)
Lemma chainFrom_previous (v : variant) (g : globals)
    (rest : list (jsValue -> string)) (url : string) :
  forall i u,
    nth_error (requests (chainFrom v g url rest)) (S i) = Some u ->
    exists u' text parsed id next,
      nth_error (requests (chainFrom v g url rest)) i = Some u' /\
      stepText v u' = inr text /\
      JSON_parse_text text = Some parsed /\
      get_id parsed = inr id /\
      nth_error rest i = Some next /\
      u = next id.
Proof.
  revert rest url.
  apply (run_ind v g
           (fun _ rest o =>
              forall i u,
                nth_error (requests o) (S i) = Some u ->
                exists u' text parsed id next,
                  nth_error (requests o) i = Some u' /\
                  stepText v u' = inr text /\
                  JSON_parse_text text = Some parsed /\
                  get_id parsed = inr id /\
                  nth_error rest i = Some next /\
                  u = next id));
    cbv beta.
  - intros url rest e0 Hs i u Hi. cbn in Hi. now destruct i.
  - intros url rest text0 Hs Hp i u Hi. rewrite requests_throws in Hi.
    cbn in Hi. now destruct i.
  - intros url text0 parsed0 Hs Hp i u Hi. cbn in Hi. now destruct i.
  - intros url next rest text0 parsed0 e0 Hs Hp Hg i u Hi.
    rewrite requests_throws in Hi. cbn in Hi. now destruct i.
  - intros url next rest text0 parsed0 id0 Hs Hp Hg IH [ | i] u Hi.
    + change (nth_error (requests (chainFrom v g (next id0) rest)) 0 = Some u)
        in Hi.
      rewrite (chainFrom_first JSON_parse_text respond settle) in Hi.
      exists url, text0, parsed0, id0, next. cbn. repeat split; auto.
      congruence.
    + cbn in Hi. destruct (IH i u Hi) as (u' & text & parsed & id & next' & H).
      exists u', text, parsed, id, next'. exact H.
Qed.

(** The request before a request of a run. *)
Lemma run_previous (v : variant) (g : globals)
    (username postTitle : string) (i : nat) (url : string) :
  nth_error (requests (run v username postTitle g)) (S i) = Some url ->
  exists previous text parsed id,
    nth_error (requests (run v username postTitle g)) i = Some previous /\
    stepText v previous = inr text /\
    JSON_parse_text text = Some parsed /\
    get_id parsed = inr id /\
    url = match i with
          | O => blogsURL g id
          | S O => blogpostsURL g id postTitle
          | _ => commentsURL v g id
          end.
Proof.
  rewrite run_is_chain. unfold chain. intros Hi.
  destruct (chainFrom_previous _ _ _ _ _ _ Hi)
    as (u' & text & parsed & id & next & Hn & Ht & Hp & Hid & Hnext & ->).
  exists u', text, parsed, id. repeat split; auto.
  destruct i as [ | [ | [ | i]]]; cbn in Hnext;
    [ | | | destruct i; discriminate Hnext];
    now injection Hnext as <-.
Qed.

(** X11. In every run, successful or not, each request after the first was
    built from the one before it: that one's text parsed, the parsed value
    had a readable [id], and the locator is the blogs, blog post or comments
    locator of that [id]. *)
Theorem request_built_from_previous (v : variant) (g : globals)
    (username postTitle : string) (i : nat) (url : string) :
  nth_error (requests (run v username postTitle g)) (S i) = Some url ->
  exists previous text parsed id,
    nth_error (requests (run v username postTitle g)) i = Some previous /\
    stepText v previous = inr text /\
    JSON_parse_text text = Some parsed /\
    get_id parsed = inr id /\
    url = match i with
          | O => blogsURL g id
          | S O => blogpostsURL g id postTitle
          | _ => commentsURL v g id
          end.
Proof.
  apply run_previous.
Qed.

(** What [getCommentsHandleErrs] goes on with, [getComments] goes on with
    too. *)
Lemma handleErrs_text_is_getComments_text (url text : string) :
  stepText CallbacksHandleErrs url = inr text ->
  stepText Callbacks url = inr text.
Proof.
  unfold stepText. destruct (respond url) as [err | s b]; [discriminate | ].
  destruct (s =? 200)%Z; [auto | discriminate].
Qed.

(** The first three locators of the two callback chains. *)
Lemma shared_three_locators (g : globals)
    (username postTitle : string) (i : nat) (url : string) :
  (i < 3)%nat ->
  nth_error (requests (run CallbacksHandleErrs username postTitle g)) i = Some url ->
  nth_error (requests (run Callbacks username postTitle g)) i = Some url.
Proof.
  rewrite !run_is_chain. unfold chain. intros Hlt.
  apply chainFrom_simulates.
  - exact handleErrs_text_is_getComments_text.
  - intros j Hj. destruct j as [ | [ | j]]; [reflexivity | reflexivity | lia].
Qed.

(** X12. The first three requests [getCommentsHandleErrs] issues are
    requests of [getComments] too, at the same positions: as far as it gets,
    the error handling changes none of the first three locators. *)
Theorem callback_variants_share_three_locators (g : globals)
    (username postTitle : string) (i : nat) (url : string) :
  (i < 3)%nat ->
  nth_error (requests (run CallbacksHandleErrs username postTitle g)) i = Some url ->
  nth_error (requests (run Callbacks username postTitle g)) i = Some url.
Proof.
  apply shared_three_locators.
Qed.

(** X13. Whenever both callback chains get as far as the comments request,
    they request different locators: the one of [getCommentsHandleErrs] has
    a slash before [comments] that the one of [getComments] has not. *)
Theorem comments_locators_always_differ (g : globals)
    (username postTitle url url' : string) :
  nth_error (requests (run CallbacksHandleErrs username postTitle g)) 3 = Some url ->
  nth_error (requests (run Callbacks username postTitle g)) 3 = Some url' ->
  exists id,
    url = (apiURL g ++ "/comments/") ++ toStr id /\
    url' = (apiURL g ++ "comments/") ++ toStr id /\
    url <> url'.
Proof.
  intros H H'.
  destruct (run_previous _ _ _ _ _ _ H)
    as (p & text & parsed & id & Hp & Ht & Hq & Hid & ->).
  destruct (run_previous _ _ _ _ _ _ H')
    as (p' & text' & parsed' & id' & Hp' & Ht' & Hq' & Hid' & ->).
  apply shared_three_locators in Hp; [ | lia].
  rewrite Hp in Hp'. injection Hp' as <-.
  apply handleErrs_text_is_getComments_text in Ht.
  rewrite Ht in Ht'. injection Ht' as <-.
  rewrite Hq in Hq'. injection Hq' as <-.
  rewrite Hid in Hid'. injection Hid' as <-.
  exists id. repeat split. apply commentsURL_differs.
Qed.

End MoreProperties.

(** ** The calls at the end of the script *)

(** Split on what a callback given from outside does. *)
Ltac callback_case :=
  match goal with
  | |- context [match ?k ?a ?g with Outcome _ _ _ => _ end] =>
      destruct (k a g) as [? ? ?]
  end.

Lemma urls_app (l1 l2 : list event) :
  urls (l1 ++ l2) = (urls l1 ++ urls l2)%list.
Proof.
  induction l1 as [ | [u | a] l1 IH]; cbn; [reflexivity | now rewrite IH | exact IH].
Qed.

Lemma urls_map_Request (l : list string) : urls (map Request l) = l.
Proof.
  induction l as [ | u l IH]; cbn; [reflexivity | now rewrite IH].
Qed.

(** The requests, the result and the final state of [m] followed by [f]. *)
Lemma bind_effect {A B} (m : M A) (f : A -> M B) (g : globals) :
  urls (log (bind m f g)) =
    (urls (log (m g)) ++
     match ret (m g) with
     | inr a => urls (log (f a (store (m g))))
     | inl _ => []
     end)%list /\
  ret (bind m f g) =
    match ret (m g) with
    | inr a => ret (f a (store (m g)))
    | inl e => inl e
    end /\
  store (bind m f g) =
    match ret (m g) with
    | inr a => store (f a (store (m g)))
    | inl _ => store (m g)
    end.
Proof.
  unfold bind. destruct (m g) as [l g' [e | a]]; cbn.
  - now rewrite app_nil_r.
  - destruct (f a g') as [l' g'' r]. cbn. now rewrite urls_app.
Qed.

(** The same for [p.catch(h)]. *)
Lemma catch_effect {A} (p : promise A) (h : jsError -> promise A) (g : globals) :
  urls (log (catch_ p h g)) =
    (urls (log (p g)) ++
     match ret (p g) with
     | inl e => urls (log (h e (store (p g))))
     | inr _ => []
     end)%list /\
  ret (catch_ p h g) =
    match ret (p g) with
    | inl e => ret (h e (store (p g)))
    | inr a => inr a
    end.
Proof.
  unfold catch_. destruct (p g) as [l g' [e | a]]; cbn.
  - destruct (h e g') as [l' g'' r]. cbn. now rewrite urls_app.
  - now rewrite app_nil_r.
Qed.

(** A quiet call in front changes neither the requests, nor the result, nor
    the state. *)
Lemma quiet_first {B} (f : list arg -> M unit) (args : list arg) (m : M B)
    (g : globals) :
  quiet f ->
  urls (log ((f args ;; m) g)) = urls (log (m g)) /\
  ret ((f args ;; m) g) = ret (m g) /\
  store ((f args ;; m) g) = store (m g).
Proof.
  intros Hq. destruct (Hq args g) as (Hs & Hr & Hu).
  destruct (bind_effect (f args) (fun _ => m) g) as (Eu & Er & Es).
  rewrite Eu, Er, Es, Hr, Hs, Hu. auto.
Qed.

Lemma followedBy_effect (requested : list string) (next : outcome unit) :
  urls (log (followedBy requested next)) = (requested ++ urls (log next))%list /\
  ret (followedBy requested next) = ret next.
Proof.
  unfold followedBy. cbn. now rewrite urls_app, urls_map_Request.
Qed.

Section TopLevelProperties.

Variable JSON_parse_text : string -> option jsValue.
Variable respond : string -> response.
Variable settle : string -> jsError + string.

Local Abbreviation run := (run JSON_parse_text respond settle).

(** [getComments] with any callback: its requests, and then, unless an
    exception escaped, the callback on the value. *)
Lemma getComments_then (k : list arg -> M unit)
    (username postTitle : string) (g : globals) :
  getComments JSON_parse_text respond username postTitle k g =
    match uncaught (run Callbacks username postTitle g),
          delivered (run Callbacks username postTitle g) with
    | None, [Success a] =>
        followedBy (requests (run Callbacks username postTitle g)) (k [a] g)
    | None, _ =>
        Outcome (map Request (requests (run Callbacks username postTitle g)))
          g (inr tt)
    | Some e, _ =>
        Outcome (map Request (requests (run Callbacks username postTitle g)))
          g (inl e)
    end.
Proof.
  unfold followedBy.
  script_cases; cbv beta iota zeta delta [valueOnly nth];
    repeat callback_case; reflexivity.
Qed.

(** [getCommentsHandleErrs] with any callback: its requests, and then,
    unless an exception escaped, the callback on the failure, or on [null]
    and the value. *)
Lemma getCommentsHandleErrs_then (k : list arg -> M unit)
    (username postTitle : string) (g : globals) :
  getCommentsHandleErrs JSON_parse_text respond username postTitle k g =
    match uncaught (run CallbacksHandleErrs username postTitle g),
          delivered (run CallbacksHandleErrs username postTitle g) with
    | None, [Failure a] =>
        followedBy (requests (run CallbacksHandleErrs username postTitle g))
          (k [a] g)
    | None, [Success a] =>
        followedBy (requests (run CallbacksHandleErrs username postTitle g))
          (k [AVal VNull; a] g)
    | None, _ =>
        Outcome
          (map Request (requests (run CallbacksHandleErrs username postTitle g)))
          g (inr tt)
    | Some e, _ =>
        Outcome
          (map Request (requests (run CallbacksHandleErrs username postTitle g)))
          g (inl e)
    end.
Proof.
  unfold followedBy.
  script_cases; cbv beta iota zeta delta [errorFirst arg_truthy truthy nth];
    repeat callback_case; reflexivity.
Qed.

(** A promise chain does nothing but request, and leaves the module state
    alone. *)
Lemma promise_chain_only_requests (username postTitle : string) (g : globals) :
  getCommsPromisified JSON_parse_text settle username postTitle g =
    Outcome (map Request (requests (run Promisified username postTitle g))) g
      (ret (getCommsPromisified JSON_parse_text settle username postTitle g)).
Proof.
  script_cases; reflexivity.
Qed.

(** What [getComments] delivers is a success: it has no other way to call
    back. *)
Lemma getComments_delivers_success (username postTitle : string) (g : globals)
    (r : chainResult) :
  In r (delivered (run Callbacks username postTitle g)) ->
  exists a, r = Success a.
Proof.
  change (delivered (run Callbacks username postTitle g))
    with (map valueOnly
            (callbacks
               (log (getComments JSON_parse_text respond
                       username postTitle record g)))).
  intros Hin. apply in_map_iff in Hin. destruct Hin as (args & <- & _).
  now eexists.
Qed.

(** A call of [getComments] whose callback always issues the requests
    [later] and ends in [result]. *)
Lemma getComments_call (k : list arg -> M unit) (username postTitle : string)
    (g : globals) (later : list string) (result : jsError + unit) :
  (forall args, urls (log (k args g)) = later /\ ret (k args g) = result) ->
  urls (log (getComments JSON_parse_text respond username postTitle k g)) =
    (requests (run Callbacks username postTitle g) ++
     match delivered (run Callbacks username postTitle g) with
     | [] => []
     | _ :: _ => later
     end)%list /\
  ret (getComments JSON_parse_text respond username postTitle k g) =
    match uncaught (run Callbacks username postTitle g) with
    | Some e => inl e
    | None => result
    end.
Proof.
  intros Hk. rewrite getComments_then.
  destruct (run_one_ending JSON_parse_text respond settle
              Callbacks g username postTitle)
    as [(r & Hd & Hu) | (e & Hd & Hu & _)]; rewrite Hd, Hu.
  - destruct (getComments_delivers_success username postTitle g r) as (a & ->);
      [rewrite Hd; now left | ].
    destruct (followedBy_effect (requests (run Callbacks username postTitle g))
                (k [a] g)) as (Eu & Er).
    destruct (Hk [a]) as (Hl & Hr).
    now rewrite Eu, Er, Hl, Hr.
  - cbn. now rewrite urls_map_Request, app_nil_r.
Qed.

(** The same for [getCommentsHandleErrs], whose callback is called on a
    failure as well. *)
Lemma getCommentsHandleErrs_call (k : list arg -> M unit)
    (username postTitle : string) (g : globals) (later : list string)
    (result : jsError + unit) :
  (forall args, urls (log (k args g)) = later /\ ret (k args g) = result) ->
  urls (log (getCommentsHandleErrs JSON_parse_text respond username postTitle k g)) =
    (requests (run CallbacksHandleErrs username postTitle g) ++
     match delivered (run CallbacksHandleErrs username postTitle g) with
     | [] => []
     | _ :: _ => later
     end)%list /\
  ret (getCommentsHandleErrs JSON_parse_text respond username postTitle k g) =
    match uncaught (run CallbacksHandleErrs username postTitle g) with
    | Some e => inl e
    | None => result
    end.
Proof.
  intros Hk. rewrite getCommentsHandleErrs_then.
  destruct (run_one_ending JSON_parse_text respond settle
              CallbacksHandleErrs g username postTitle)
    as [(r & Hd & Hu) | (e & Hd & Hu & _)]; rewrite Hd, Hu.
  - destruct r as [a | a].
    + destruct (followedBy_effect
                  (requests (run CallbacksHandleErrs username postTitle g))
                  (k [AVal VNull; a] g)) as (Eu & Er).
      destruct (Hk [AVal VNull; a]) as (Hl & Hr).
      now rewrite Eu, Er, Hl, Hr.
    + destruct (followedBy_effect
                  (requests (run CallbacksHandleErrs username postTitle g))
                  (k [a] g)) as (Eu & Er).
      destruct (Hk [a]) as (Hl & Hr).
      now rewrite Eu, Er, Hl, Hr.
  - cbn. now rewrite urls_map_Request, app_nil_r.
Qed.

Variable console_log : list arg -> M unit.
Variable console_error : list arg -> M unit.
Variable stack : jsError -> jsValue.

Hypothesis log_quiet : quiet console_log.
Hypothesis error_quiet : quiet console_error.

Local Abbreviation main :=
  (main JSON_parse_text respond settle console_log console_error stack).

(** The last call: [getCommsPromisifiedHandleErrs] with its [then] and its
    [catch]. *)
Lemma last_call (g : globals) :
  let p :=
    catch_ (then_
      (getCommsPromisifiedHandleErrs JSON_parse_text settle
         "peter" "Will-Cause-An-Error")
      (fun comments => console_log [AVal comments]))
      (fun err => console_error [AVal (stack err)]) in
  urls (log (p g)) =
    requests (run PromisifiedHandleErrs "peter" "Will-Cause-An-Error" g) /\
  ret (p g) = inr tt.
Proof.
  intros p. subst p.
  destruct (catch_effect
              (then_ (getCommsPromisifiedHandleErrs JSON_parse_text settle
                        "peter" "Will-Cause-An-Error")
                 (fun comments => console_log [AVal comments]))
              (fun err => console_error [AVal (stack err)]) g) as (Eu & Er).
  rewrite Eu, Er. clear Eu Er. unfold then_.
  destruct (bind_effect
              (getCommsPromisifiedHandleErrs JSON_parse_text settle
                 "peter" "Will-Cause-An-Error")
              (fun comments => console_log [AVal comments]) g) as (Eu & Er & Es).
  rewrite Eu, Er, Es. clear Eu Er Es.
  change (getCommsPromisifiedHandleErrs JSON_parse_text settle)
    with (getCommsPromisified JSON_parse_text settle).
  change (requests (run PromisifiedHandleErrs "peter" "Will-Cause-An-Error" g))
    with (requests (run Promisified "peter" "Will-Cause-An-Error" g)).
  rewrite promise_chain_only_requests. cbn [log store ret].
  rewrite urls_map_Request.
  destruct (ret _) as [e | v].
  - destruct (error_quiet [AVal (stack e)] g) as (_ & Hr & Hu).
    rewrite Hr, Hu. now rewrite !app_nil_r.
  - destruct (log_quiet [AVal v] g) as (_ & Hr & Hu).
    rewrite Hr, Hu. now rewrite !app_nil_r.
Qed.

(** Drop the console calls in front. *)
Ltac past_console :=
  repeat match goal with
         | |- context [bind (console_log ?a) (fun _ => ?m) ?g] =>
             let Eu := fresh in
             let Er := fresh in
             destruct (quiet_first console_log a m g log_quiet) as (Eu & Er & _);
             rewrite Eu, Er; clear Eu Er
         | |- context [bind (console_error ?a) (fun _ => ?m) ?g] =>
             let Eu := fresh in
             let Er := fresh in
             destruct (quiet_first console_error a m g error_quiet)
               as (Eu & Er & _);
             rewrite Eu, Er; clear Eu Er
         end.

(** A call of [getCommsPromisified] with the first [then] of line 308 and a
    second [then] that issues the requests [later] and ends in [result]. *)
Lemma getCommsPromisified_call (next : unit -> M unit) (username postTitle : string)
    (g : globals) (later : list string) (result : jsError + unit) :
  urls (log (next tt g)) = later /\ ret (next tt g) = result ->
  let p :=
    then_ (then_
      (getCommsPromisified JSON_parse_text settle username postTitle)
      (fun comments => console_log [AVal comments]))
      next in
  urls (log (p g)) =
    (requests (run Promisified username postTitle g) ++
     match delivered (run Promisified username postTitle g) with
     | [Success _] => later
     | _ => []
     end)%list /\
  ret (p g) =
    match delivered (run Promisified username postTitle g) with
    | [Failure (AErr e)] => inl e
    | _ => result
    end.
Proof.
  intros (Hl & Hr) p. subst p. unfold then_.
  destruct (bind_effect
              (bind (getCommsPromisified JSON_parse_text settle username postTitle)
                 (fun comments => console_log [AVal comments]))
              next g) as (Eu & Er & _).
  rewrite Eu, Er. clear Eu Er.
  destruct (bind_effect
              (getCommsPromisified JSON_parse_text settle username postTitle)
              (fun comments => console_log [AVal comments]) g) as (Eu & Er & Es).
  rewrite Eu, Er, Es. clear Eu Er Es.
  pose proof (promise_chain_only_requests username postTitle g) as HP.
  change (delivered (run Promisified username postTitle g))
    with [settled (ret (getCommsPromisified JSON_parse_text settle
                          username postTitle g))].
  change (requests (run Promisified username postTitle g))
    with (urls (log (getCommsPromisified JSON_parse_text settle
                       username postTitle g))) in *.
  destruct (getCommsPromisified JSON_parse_text settle username postTitle g)
    as [l g' [e | v]]; cbn [log store ret settled] in *;
    injection HP as _ ->.
  - now rewrite !app_nil_r.
  - destruct (log_quiet [AVal v] g) as (Hs & Hq & Hu).
    rewrite Hq, Hu, Hs, Hl, Hr. now rewrite app_nil_r.
Qed.

(** The requests of the script: those of [getComments]; then, if it called
    back, those of [getCommsPromisified]; then, if that was fulfilled, those
    of [getCommentsHandleErrs]; then, if it called back, with a failure or
    with a value, those of [getCommsPromisifiedHandleErrs]. *)
Lemma main_effect (g : globals) :
  urls (log (main g)) =
    (requests (run Callbacks "peter" "Promise-Chaining" g) ++
     match delivered (run Callbacks "peter" "Promise-Chaining" g) with
     | [] => []
     | _ :: _ =>
         requests (run Promisified "peter" "Promise-Chaining" g) ++
         match delivered (run Promisified "peter" "Promise-Chaining" g) with
         | [Success _] =>
             requests (run CallbacksHandleErrs "peter" "Not-A-Real-Post" g) ++
             match delivered (run CallbacksHandleErrs "peter" "Not-A-Real-Post" g) with
             | [] => []
             | _ :: _ =>
                 requests (run PromisifiedHandleErrs "peter" "Will-Cause-An-Error" g)
             end
         | _ => []
         end
     end)%list /\
  ret (main g) =
    match uncaught (run Callbacks "peter" "Promise-Chaining" g) with
    | Some e => inl e
    | None =>
        match delivered (run Promisified "peter" "Promise-Chaining" g) with
        | [Failure (AErr e)] => inl e
        | _ =>
            match uncaught (run CallbacksHandleErrs "peter" "Not-A-Real-Post" g) with
            | Some e => inl e
            | None => inr tt
            end
        end
    end.
Proof.
  unfold main.
  apply getComments_call. intros args. past_console.
  apply getCommsPromisified_call. past_console.
  apply getCommentsHandleErrs_call. intros args'.
  cbv zeta. destruct (arg_truthy (nth 0 args' (AVal VUndefined)));
    past_console; apply last_call.
Qed.

(** X14. The requests of the script, in order: those of [getComments];
    then, only if it called back, those of [getCommsPromisified]; then, only
    if that promise was fulfilled, those of [getCommentsHandleErrs]; then,
    whenever that one called back, with a failure or with a value, those of
    [getCommsPromisifiedHandleErrs].  An error in the third chain does not
    keep the fourth from running; an escaped exception or a rejection
    before it does. *)
Theorem main_requests (g : globals) :
  urls (log (main g)) =
    (requests (run Callbacks "peter" "Promise-Chaining" g) ++
     match delivered (run Callbacks "peter" "Promise-Chaining" g) with
     | [] => []
     | _ :: _ =>
         requests (run Promisified "peter" "Promise-Chaining" g) ++
         match delivered (run Promisified "peter" "Promise-Chaining" g) with
         | [Success _] =>
             requests (run CallbacksHandleErrs "peter" "Not-A-Real-Post" g) ++
             match delivered (run CallbacksHandleErrs "peter" "Not-A-Real-Post" g) with
             | [] => []
             | _ :: _ =>
                 requests (run PromisifiedHandleErrs "peter" "Will-Cause-An-Error" g)
             end
         | _ => []
         end
     end)%list.
Proof.
  exact (proj1 (main_effect g)).
Qed.

(** X15. The script ends with an error nobody handles exactly when
    [getComments] or [getCommentsHandleErrs] lets an exception escape, or
    [getCommsPromisified] is rejected (lines 308-314 have no [catch]).  A
    rejection of [getCommsPromisifiedHandleErrs] is always caught by the
    [catch] of line 338. *)
Theorem main_unhandled (g : globals) :
  ret (main g) =
    match uncaught (run Callbacks "peter" "Promise-Chaining" g) with
    | Some e => inl e
    | None =>
        match delivered (run Promisified "peter" "Promise-Chaining" g) with
        | [Failure (AErr e)] => inl e
        | _ =>
            match uncaught (run CallbacksHandleErrs "peter" "Not-A-Real-Post" g) with
            | Some e => inl e
            | None => inr tt
            end
        end
    end.
Proof.
  exact (proj2 (main_effect g)).
Qed.

End TopLevelProperties.

(** ** The sample servers, run again *)

Lemma silent_is_quiet : quiet silent.
Proof.
  intros args g. repeat split.
Qed.

Lemma blogServer_behind_promise (url b : string) :
  blogServerPromise url = inr b -> exists s, blogServer url = Reply s b.
Proof.
  unfold blogServerPromise. destruct (blogServer url) as [e | s b'];
    [discriminate | ].
  destruct (s =? 200)%Z; [ | discriminate].
  intros H. injection H as ->. now exists s.
Qed.

(** X1, on a server that answers 418 with a user: [getComments] goes on to
    the blog of user 7. *)
Lemma getComments_ignores_status_witness :
  (nth_error
     (requests (run sampleParse teapotServer blogServerPromise Callbacks
                  "peter" "Promise-Chaining" initial_globals)) 0 =
     Some "http://ctrl-alt-create.net/api/users/peter" /\
   teapotServer "http://ctrl-alt-create.net/api/users/peter" =
     Reply 418 (idBody "7") /\
   sampleParse (idBody "7") = Some (VObj [("id", VNum 7)]) /\
   0%nat <> 3%nat /\
   get_id (VObj [("id", VNum 7)]) = inr (VNum 7)) /\
  nth_error
    (requests (run sampleParse teapotServer blogServerPromise Callbacks
                 "peter" "Promise-Chaining" initial_globals)) 1 =
    Some "http://ctrl-alt-create.net/api/blogs/7".
Proof.
  assert (H03 : 0%nat <> 3%nat) by discriminate.
  split; [repeat split; exact H03 | ].
  exact (proj2 (getComments_ignores_status sampleParse teapotServer
                  blogServerPromise initial_globals "peter" "Promise-Chaining" 0
                  "http://ctrl-alt-create.net/api/users/peter" 418 (idBody "7")
                  (VObj [("id", VNum 7)]) eq_refl eq_refl eq_refl)
           H03 (VNum 7) eq_refl).
Defined.

(** X2, on a server that answers [null]: [getCommsPromisified2] is
    rejected with the [TypeError]. *)
Lemma null_has_no_id_witness :
  ((0 < 3)%nat /\
   nth_error
     (requests (run sampleParse nullServer nullServerPromise Promisified2
                  "peter" "Promise-Chaining" initial_globals)) 0 =
     Some "http://ctrl-alt-create.net/api/users/peter" /\
   fetched nullServer nullServerPromise Promisified2
     "http://ctrl-alt-create.net/api/users/peter" = Some "null" /\
   sampleParse "null" = Some VNull /\
   usesPromises Promisified2 = true) /\
  delivered (run sampleParse nullServer nullServerPromise Promisified2
               "peter" "Promise-Chaining" initial_globals) =
    [Failure (AErr (TypeError "id"))] /\
  uncaught (run sampleParse nullServer nullServerPromise Promisified2
              "peter" "Promise-Chaining" initial_globals) = None.
Proof.
  assert (H03 : (0 < 3)%nat) by (repeat constructor).
  split; [repeat split; exact H03 | ].
  exact (proj1 (proj2 (null_has_no_id sampleParse nullServer nullServerPromise
                         Promisified2 initial_globals "peter" "Promise-Chaining" 0
                         "http://ctrl-alt-create.net/api/users/peter" "null"
                         H03 eq_refl eq_refl eq_refl)) eq_refl).
Defined.

(** X3, on a server that answers with an object without fields:
    [getComments] goes on to [blogs/undefined]. *)
Lemma missing_id_requests_undefined_witness :
  ((0 < 3)%nat /\
   nth_error
     (requests (run sampleParseWithEmptyObject emptyObjectServer
                  emptyObjectServerPromise Callbacks
                  "peter" "Promise-Chaining" initial_globals)) 0 =
     Some "http://ctrl-alt-create.net/api/users/peter" /\
   fetched emptyObjectServer emptyObjectServerPromise Callbacks
     "http://ctrl-alt-create.net/api/users/peter" = Some "{}" /\
   sampleParseWithEmptyObject "{}" = Some (VObj []) /\
   lookupField "id" [] = VUndefined) /\
  nth_error
    (requests (run sampleParseWithEmptyObject emptyObjectServer
                 emptyObjectServerPromise Callbacks
                 "peter" "Promise-Chaining" initial_globals)) 1 =
    Some "http://ctrl-alt-create.net/api/blogs/undefined".
Proof.
  assert (H03 : (0 < 3)%nat) by (repeat constructor).
  split; [repeat split; exact H03 | ].
  exact (missing_id_requests_undefined sampleParseWithEmptyObject
           emptyObjectServer emptyObjectServerPromise Callbacks initial_globals
           "peter" "Promise-Chaining" 0
           "http://ctrl-alt-create.net/api/users/peter" "{}" []
           H03 eq_refl eq_refl eq_refl eq_refl).
Defined.

(** X6, on the sample server: the success of [getCommentsHandleErrs]. *)
Lemma success_needs_four_steps_witness :
  delivered (run sampleParse blogServer blogServerPromise CallbacksHandleErrs
               "peter" "Promise-Chaining" initial_globals) =
    [Success (AVal (VArr [VObj [("text", VStr "nice")]]))] /\
  length
    (requests (run sampleParse blogServer blogServerPromise CallbacksHandleErrs
                 "peter" "Promise-Chaining" initial_globals)) = 4%nat.
Proof.
  split; [reflexivity | ].
  exact (proj1 (success_needs_four_steps sampleParse blogServer blogServerPromise
                  CallbacksHandleErrs initial_globals "peter" "Promise-Chaining"
                  (AVal (VArr [VObj [("text", VStr "nice")]])) eq_refl)).
Defined.

(** X7, on the sample server: the events of [getCommentsHandleErrs]. *)
Lemma callback_comes_last_witness :
  delivered (run sampleParse blogServer blogServerPromise CallbacksHandleErrs
               "peter" "Promise-Chaining" initial_globals) =
    [Success (AVal (VArr [VObj [("text", VStr "nice")]]))] /\
  log (getCommentsHandleErrs sampleParse blogServer
         "peter" "Promise-Chaining" record initial_globals) =
    [Request "http://ctrl-alt-create.net/api/users/peter";
     Request "http://ctrl-alt-create.net/api/blogs/7";
     Request "http://ctrl-alt-create.net/api/blogposts/42/Promise-Chaining";
     Request "http://ctrl-alt-create.net/api//comments/99";
     Callback [AVal VNull; AVal (VArr [VObj [("text", VStr "nice")]])]].
Proof.
  split; [reflexivity | ].
  exact (proj2 (callback_comes_last sampleParse blogServer blogServerPromise
                  initial_globals "peter" "Promise-Chaining"
                  (AVal (VArr [VObj [("text", VStr "nice")]]))) eq_refl).
Defined.

(** X8, on the sample server: [getCommsPromisified] and [getComments]. *)
Lemma fulfilled_promise_chain_is_getComments_witness :
  (usesPromises Promisified = true /\
   delivered (run sampleParse blogServer blogServerPromise Promisified
                "peter" "Promise-Chaining" initial_globals) =
     [Success (AVal (VArr [VObj [("text", VStr "nice")]]))]) /\
  run sampleParse blogServer blogServerPromise Callbacks
    "peter" "Promise-Chaining" initial_globals =
  run sampleParse blogServer blogServerPromise Promisified
    "peter" "Promise-Chaining" initial_globals.
Proof.
  split; [split; reflexivity | ].
  exact (fulfilled_promise_chain_is_getComments sampleParse blogServer
           blogServerPromise Promisified initial_globals
           "peter" "Promise-Chaining"
           (AVal (VArr [VObj [("text", VStr "nice")]]))
           eq_refl blogServer_behind_promise eq_refl).
Defined.

(** X9, on the sample server: the blog request of [getComments]. *)
Lemma requests_stay_under_apiURL_witness :
  In "http://ctrl-alt-create.net/api/blogs/7"
     (requests (run sampleParse blogServer blogServerPromise Callbacks
                  "peter" "Promise-Chaining" initial_globals)) /\
  exists path,
    "http://ctrl-alt-create.net/api/blogs/7" = apiURL initial_globals ++ path.
Proof.
  assert (Hin : In "http://ctrl-alt-create.net/api/blogs/7"
                  (requests (run sampleParse blogServer blogServerPromise Callbacks
                               "peter" "Promise-Chaining" initial_globals)))
    by (right; left; reflexivity).
  split; [exact Hin | ].
  exact (requests_stay_under_apiURL sampleParse blogServer blogServerPromise
           Callbacks initial_globals "peter" "Promise-Chaining"
           "http://ctrl-alt-create.net/api/blogs/7" Hin).
Defined.


(** X11, on the sample server: the blog request of [getCommsPromisified]. *)
Lemma request_built_from_previous_witness :
  nth_error
    (requests (run sampleParse blogServer blogServerPromise Promisified
                 "peter" "Promise-Chaining" initial_globals)) 1 =
    Some "http://ctrl-alt-create.net/api/blogs/7" /\
  exists previous text parsed id,
    nth_error
      (requests (run sampleParse blogServer blogServerPromise Promisified
                   "peter" "Promise-Chaining" initial_globals)) 0 = Some previous /\
    stepText blogServer blogServerPromise Promisified previous = inr text /\
    sampleParse text = Some parsed /\
    get_id parsed = inr id /\
    "http://ctrl-alt-create.net/api/blogs/7" = blogsURL initial_globals id.
Proof.
  split; [reflexivity | ].
  exact (request_built_from_previous sampleParse blogServer blogServerPromise
           Promisified initial_globals "peter" "Promise-Chaining" 0
           "http://ctrl-alt-create.net/api/blogs/7" eq_refl).
Defined.

(** X12, on the sample server: the blog post request. *)
Lemma callback_variants_share_three_locators_witness :
  ((2 < 3)%nat /\
   nth_error
     (requests (run sampleParse blogServer blogServerPromise CallbacksHandleErrs
                  "peter" "Promise-Chaining" initial_globals)) 2 =
     Some "http://ctrl-alt-create.net/api/blogposts/42/Promise-Chaining") /\
  nth_error
    (requests (run sampleParse blogServer blogServerPromise Callbacks
                 "peter" "Promise-Chaining" initial_globals)) 2 =
    Some "http://ctrl-alt-create.net/api/blogposts/42/Promise-Chaining".
Proof.
  assert (H23 : (2 < 3)%nat) by (repeat constructor).
  split; [split; [exact H23 | reflexivity] | ].
  exact (callback_variants_share_three_locators sampleParse blogServer
           blogServerPromise initial_globals "peter" "Promise-Chaining" 2
           "http://ctrl-alt-create.net/api/blogposts/42/Promise-Chaining"
           H23 eq_refl).
Defined.

(** X13, on the sample server: the two comments locators. *)
Lemma comments_locators_always_differ_witness :
  (nth_error
     (requests (run sampleParse blogServer blogServerPromise CallbacksHandleErrs
                  "peter" "Promise-Chaining" initial_globals)) 3 =
     Some "http://ctrl-alt-create.net/api//comments/99" /\
   nth_error
     (requests (run sampleParse blogServer blogServerPromise Callbacks
                  "peter" "Promise-Chaining" initial_globals)) 3 =
     Some "http://ctrl-alt-create.net/api/comments/99") /\
  exists id,
    "http://ctrl-alt-create.net/api//comments/99" =
      (apiURL initial_globals ++ "/comments/") ++ toStr id /\
    "http://ctrl-alt-create.net/api/comments/99" =
      (apiURL initial_globals ++ "comments/") ++ toStr id /\
    "http://ctrl-alt-create.net/api//comments/99" <>
    "http://ctrl-alt-create.net/api/comments/99".
Proof.
  split; [split; reflexivity | ].
  exact (comments_locators_always_differ sampleParse blogServer blogServerPromise
           initial_globals "peter" "Promise-Chaining"
           "http://ctrl-alt-create.net/api//comments/99"
           "http://ctrl-alt-create.net/api/comments/99" eq_refl eq_refl).
Defined.

(** X14, on the sample server with a console that prints nowhere: the
    fourteen requests of the script. *)
Lemma main_requests_witness :
  (quiet silent /\ quiet silent) /\
  urls (log (main sampleParse blogServer blogServerPromise
               silent silent sampleStack initial_globals)) =
    ["http://ctrl-alt-create.net/api/users/peter";
     "http://ctrl-alt-create.net/api/blogs/7";
     "http://ctrl-alt-create.net/api/blogposts/42/Promise-Chaining";
     "http://ctrl-alt-create.net/api/comments/99";
     "http://ctrl-alt-create.net/api/users/peter";
     "http://ctrl-alt-create.net/api/blogs/7";
     "http://ctrl-alt-create.net/api/blogposts/42/Promise-Chaining";
     "http://ctrl-alt-create.net/api/comments/99";
     "http://ctrl-alt-create.net/api/users/peter";
     "http://ctrl-alt-create.net/api/blogs/7";
     "http://ctrl-alt-create.net/api/blogposts/42/Not-A-Real-Post";
     "http://ctrl-alt-create.net/api/users/peter";
     "http://ctrl-alt-create.net/api/blogs/7";
     "http://ctrl-alt-create.net/api/blogposts/42/Will-Cause-An-Error"].
Proof.
  split; [split; exact silent_is_quiet | ].
  exact (main_requests sampleParse blogServer blogServerPromise
           silent silent sampleStack silent_is_quiet silent_is_quiet
           initial_globals).
Defined.

(** X15, against the server that cannot be reached: the script stops with
    the [SyntaxError] of [getComments]. *)
Lemma main_unhandled_witness :
  (quiet silent /\ quiet silent) /\
  ret (main sampleParse unreachable unreachablePromise
         silent silent sampleStack initial_globals) =
    inl (SyntaxError "undefined").
Proof.
  split; [split; exact silent_is_quiet | ].
  exact (main_unhandled sampleParse unreachable unreachablePromise
           silent silent sampleStack silent_is_quiet silent_is_quiet
           initial_globals).
Defined.
